(** * Chat-Analytics-Platform: message validation, connection pumps, hub

    A shallow embedding of the Go packages [message], [config], [client],
    [hub] and [storage] of the backend, of its server and of its start-up
    scripts, with the properties of the design document stated and proved
    over it.

    Conventions.
    - A Go [string] is a sequence of bytes; it is modelled by [string], whose
      [String.length] is Go's [len] (a count of bytes).
    - A Go [[]byte] is modelled by [list Byte.byte].
    - A Go [error] result is an [option]: [None] is [nil].
    - A Go channel is modelled by its buffer, its capacity and whether it has
      been closed; an operation on a channel completes, blocks or panics
      (module [Chan]).
    - Loggers are write-only and are left out, except in the inbound pump,
      whose trace records the warnings that replace a broadcast. *)

From Stdlib Require Import ZArith Ascii String.
From stdpp Require Import gmap strings list fin_maps functions sorting.

Local Open Scope string_scope.

(** Go's [[]byte]. *)
Abbreviation bytes := (list Byte.byte).

(* ===================================================================== *)
(** ** Go channels *)
(* ===================================================================== *)

Module Chan.

(** What a statement that touches a channel does to the goroutine running
    it: it completes with a value, it blocks (it cannot proceed in this
    state), or it panics. *)
Inductive result (S : Type) : Type :=
| Done (s : S)
| Blocked
| Panic.
Arguments Done {S} s.
Arguments Blocked {S}.
Arguments Panic {S}.

#[global] Instance result_ret : MRet result := fun _ s => Done s.
#[global] Instance result_bind : MBind result := fun _ _ k r =>
  match r with
  | Done s => k s
  | Blocked => Blocked
  | Panic => Panic
  end.

(** [make(chan A, cap)] and its later states. *)
Record chan (A : Type) : Type := mkChan {
  buf : list A;
  cap : nat;
  closed : bool
}.
Arguments mkChan {A} buf cap closed.
Arguments buf {A} c.
Arguments cap {A} c.
Arguments closed {A} c.

Definition make {A : Type} (n : nat) : chan A := mkChan [] n false.

(** [len(c)]. *)
Definition len {A : Type} (c : chan A) : nat := length (buf c).

Definition enqueue {A : Type} (c : chan A) (v : A) : chan A :=
  mkChan (buf c ++ [v]) (cap c) (closed c).

(** [close(c)]: closing a closed channel panics. *)
Definition close {A : Type} (c : chan A) : result (chan A) :=
  if closed c then Panic else Done (mkChan (buf c) (cap c) true).

(** [c <- v] on a buffered channel: a send on a closed channel panics; with
    room in the buffer the value is queued; a full buffer blocks the sender
    until a receiver has taken a value. *)
Definition send {A : Type} (c : chan A) (v : A) : result (chan A) :=
  if closed c then Panic
  else if (len c <? cap c)%nat then Done (enqueue c v)
  else Blocked.

(** [select { case c <- v: ... default: ... }]: the second component tells
    whether the send case ran ([true]) or the default case ([false]). A send
    on a closed channel is ready, and panics. *)
Definition trySend {A : Type} (c : chan A) (v : A) : result (chan A * bool) :=
  if closed c then Panic
  else if (len c <? cap c)%nat then Done (enqueue c v, true)
  else Done (c, false).

(** [v, ok := <-c]: the oldest value; on an empty channel, [None] (ok is
    false) when it is closed, and the receiver blocks when it is open. *)
Definition recv {A : Type} (c : chan A) : result (chan A * option A) :=
  match buf c with
  | v :: rest => Done (mkChan rest (cap c) (closed c), Some v)
  | [] => if closed c then Done (c, None) else Blocked
  end.

End Chan.

(* ===================================================================== *)
(** ** Package [message] *)
(* ===================================================================== *)

Module message.

(** [time.Time], as far as the package uses it: an instant (seconds since
    the epoch) and the location it is presented in. *)
Inductive Location : Set :=
| UTC
| LocalZone
| FixedZone (offset : Z).

Record Time : Set := mkTime { instant : Z; location : Location }.

(** [t.UTC()]: the same instant, presented in UTC. *)
Definition Time_UTC (t : Time) : Time :=
  {| instant := instant t; location := UTC |}.

(** The zero [time.Time], which a frame without a timestamp decodes to. *)
Definition zeroTime : Time := {| instant := -62135596800; location := UTC |}.

(** [type Type string] and its four constants. *)
Definition TypeChat : string := "chat".
Definition TypeSystem : string := "system".
Definition TypeJoin : string := "join".
Definition TypeLeave : string := "leave".

(** [type Message struct]. The field [Type] is spelled [Type_]. *)
Record Message : Set := mkMessage {
  MessageID : string;
  RoomID : string;
  Type_ : string;
  UserID : string;
  Username : string;
  Content : string;
  Timestamp : Time
}.

Definition MaxContentLength : nat := 1000.
Definition MaxUsernameLength : nat := 50.

(** The package's sentinel errors. *)
Inductive error : Set :=
| ErrEmptyContent
| ErrContentTooLong
| ErrEmptyUsername
| ErrUsernameTooLong
| ErrInvalidType.

(** [func (m *Message) Validate() error]. *)
Definition Validate (m : Message) : option error :=
  if negb (Type_ m =? TypeChat) && negb (Type_ m =? TypeSystem)
     && negb (Type_ m =? TypeJoin) && negb (Type_ m =? TypeLeave)
  then Some ErrInvalidType
  else if Username m =? "" then Some ErrEmptyUsername
  else if (MaxUsernameLength <? String.length (Username m))%nat
  then Some ErrUsernameTooLong
  else if Type_ m =? TypeChat then
    if Content m =? "" then Some ErrEmptyContent
    else if (MaxContentLength <? String.length (Content m))%nat
    then Some ErrContentTooLong
    else None
  else None.

(** [func NewChatMessage(userID, username, content string) *Message];
    [now] is the value of [time.Now()] at the call. *)
Definition NewChatMessage (now : Time) (userID username content : string)
  : Message :=
  {| MessageID := ""; RoomID := ""; Type_ := TypeChat;
     UserID := userID; Username := username; Content := content;
     Timestamp := Time_UTC now |}.

(** [func NewSystemMessage(content string) *Message]. *)
Definition NewSystemMessage (now : Time) (content : string) : Message :=
  {| MessageID := ""; RoomID := ""; Type_ := TypeSystem;
     UserID := "system"; Username := "System"; Content := content;
     Timestamp := Time_UTC now |}.

(** [ToJSON] and [FromJSON] hand the message to [encoding/json], which is
    not part of the repository: [json.Marshal] and [json.Unmarshal] at type
    [Message] are parameters of the development, with their error results. *)
Record Codec : Type := mkCodec {
  Marshal : Message -> option bytes;
  Unmarshal : bytes -> option Message
}.

(** [func (m *Message) ToJSON() ([]byte, error)]. *)
Definition ToJSON (json : Codec) (m : Message) : option bytes :=
  Marshal json m.

(** [func FromJSON(data []byte)], which returns a message or an error. *)
Definition FromJSON (json : Codec) (data : bytes) : option Message :=
  match Unmarshal json data with
  | Some msg => Some msg
  | None => None
  end.

(** A type is recognised when it is one of the four constants. *)
Definition KnownType (t : string) : Prop :=
  t = TypeChat \/ t = TypeSystem \/ t = TypeJoin \/ t = TypeLeave.

(** [strings.Repeat("a", n)], as the package's tests build long contents. *)
Fixpoint repeat_a (n : nat) : string :=
  match n with
  | O => ""
  | S k => String "a"%char (repeat_a k)
  end.

#[global] Instance Location_eq_dec : EqDecision Location.
Proof. solve_decision. Defined.
#[global] Instance Time_eq_dec : EqDecision Time.
Proof. solve_decision. Defined.
#[global] Instance Message_eq_dec : EqDecision Message.
Proof. solve_decision. Defined.

End message.

(* ===================================================================== *)
(** ** Package [config] *)
(* ===================================================================== *)

Module config.

(** The process environment: the variables that are set, with their values. *)
Abbreviation environ := (gmap string string).

(** [os.Getenv]: the value of the variable, empty when it is not set. *)
Definition Getenv (env : environ) (key : string) : string :=
  default "" (env !! key).

(** [func getEnv(key, defaultValue string) string]. *)
Definition getEnv (env : environ) (key defaultValue : string) : string :=
  let value := Getenv env key in
  if negb (value =? "") then value else defaultValue.

Record Config : Set := mkConfig {
  Port : string;
  DynamoDBEndpoint : string;
  DynamoDBRegion : string;
  AWSAccessKey : string;
  AWSSecretKey : string;
  LogLevel : string
}.

(** [func Load() *Config]. *)
Definition Load (env : environ) : Config :=
  {| Port := getEnv env "PORT" "8080";
     DynamoDBEndpoint := getEnv env "DYNAMODB_ENDPOINT" "http://localhost:8000";
     DynamoDBRegion := getEnv env "DYNAMODB_REGION" "us-east-1";
     AWSAccessKey := getEnv env "AWS_ACCESS_KEY_ID" "dummy";
     AWSSecretKey := getEnv env "AWS_SECRET_ACCESS_KEY" "dummy";
     LogLevel := getEnv env "LOG_LEVEL" "info" |}.

(** What a lookup with a default is expected to give: the value of the
    variable when it is set and not empty, the default otherwise. *)
Definition value_or_default (env : environ) (key defaultValue : string)
  : string :=
  match env !! key with
  | Some (String a s) => String a s
  | Some EmptyString | None => defaultValue
  end.

End config.

(* ===================================================================== *)
(** ** Package [client] *)
(* ===================================================================== *)

Module client.

Import message.

(** Maximum message size allowed from peer. *)
Definition maxMessageSize : N := 8192%N.

(** Buffer size for the send channel. *)
Definition sendBufferSize : nat := 256.

(** [type Client struct], without the transport, the hub reference and the
    logger: what the pumps do with them is recorded as a trace of effects. *)
Record Client : Type := mkClient {
  send : Chan.chan bytes;
  id : string;
  username : string;
  userID : string
}.

(** [func New(hub, conn, userID, username, logger) *Client]; [newID] is the
    result of [generateID()] at the call. *)
Definition New (newID userID username : string) : Client :=
  {| send := Chan.make sendBufferSize;
     id := newID;
     username := username;
     userID := userID |}.

(** One result of [c.conn.ReadMessage()]: a frame, or an error (which may
    be an unexpected close error, the only kind that is logged). *)
Inductive read : Type :=
| Frame (data : bytes)
| ReadError (unexpected : bool).

(** What the inbound pump does to the rest of the system, in order. *)
Inductive effect : Type :=
| HubBroadcast (payload : bytes)
| HubUnregister
| ConnClose
| LogWarn (msg : string)
| LogError (msg : string).

(** The two assignments [msg.UserID = c.userID; msg.Username = c.username]. *)
Definition setIdentity (c : Client) (msg : Message) : Message :=
  {| MessageID := MessageID msg;
     RoomID := RoomID msg;
     Type_ := Type_ msg;
     UserID := userID c;
     Username := username c;
     Content := Content msg;
     Timestamp := Timestamp msg |}.

(** The body of [readPump]'s loop once [ReadMessage] has returned [data]. *)
Definition readPump_frame (json : Codec) (c : Client) (data : bytes)
  : list effect :=
  match FromJSON json data with
  | None => [LogWarn "invalid message format"]
  | Some parsed =>
      let msg := setIdentity c parsed in
      match Validate msg with
      | Some _ => [LogWarn "message validation failed"]
      | None =>
          match ToJSON json msg with
          | None => [LogError "failed to marshal message"]
          | Some jsonData => [HubBroadcast jsonData]
          end
      end
  end.

(** [func (c *Client) readPump()], run against the results that the
    successive calls of [ReadMessage] return. The first error leaves the
    loop, and the deferred function unregisters and closes the transport;
    while no error has been read, the pump is waiting in [ReadMessage].
    The result lists the calls in program order. The calls [Broadcast] and
    [Unregister] are channel sends, which return only when the hub lets
    them: which calls of the list are carried out against a given hub is
    what [inbound.perform] computes. *)
Fixpoint readPump (json : Codec) (c : Client) (reads : list read)
  : list effect :=
  match reads with
  | [] => []
  | ReadError unexpected :: _ =>
      (if unexpected then [LogError "websocket read error"] else [])
      ++ [HubUnregister; ConnClose]
  | Frame data :: rest => readPump_frame json c data ++ readPump json c rest
  end.

(** The payloads handed to [c.hub.Broadcast], in order. *)
Fixpoint broadcasts (trace : list effect) : list bytes :=
  match trace with
  | [] => []
  | HubBroadcast payload :: rest => payload :: broadcasts rest
  | _ :: rest => broadcasts rest
  end.

(** [func (c *Client) Send(data []byte)]: the default case only logs. *)
Definition Send (c : Client) (data : bytes) : Chan.result Client :=
  '(ch, sent) ← Chan.trySend (send c) data;
  if (sent : bool)
  then mret (mkClient ch (id c) (username c) (userID c))
  else mret c.

(** [func (c *Client) Close()]. *)
Definition Close (c : Client) : Chan.result Client :=
  ch ← Chan.close (send c);
  mret (mkClient ch (id c) (username c) (userID c)).

(** [func (c *Client) ID() string]. *)
Definition ID (c : Client) : string := id c.

(** The payloads waiting in the private outbound queue, oldest first. *)
Definition pending (c : Client) : list bytes := Chan.buf (send c).

(** [Close] has not been called on the connection. *)
Definition isOpen (o : Client) : Prop := Chan.closed (send o) = false.

(** The connection a completed [Send] leaves: the payload queued when
    there was room, the connection as it was when there was none. *)
Definition delivered (data : bytes) (c : Client) : Client :=
  if (Chan.len (send c) <? Chan.cap (send c))%nat
  then mkClient (Chan.enqueue (send c) data) (id c) (username c) (userID c)
  else c.

(** The connection a completed [Close] leaves. *)
Definition terminated (c : Client) : Client :=
  mkClient (Chan.mkChan (pending c) (Chan.cap (send c)) true)
    (id c) (username c) (userID c).

(** A frame is rejected by the pump of [c] when it does not parse, or when
    the message it parses to, carrying the identity of [c], fails
    validation. *)
Definition rejected (json : Codec) (c : Client) (data : bytes) : Prop :=
  FromJSON json data = None \/
  exists parsed, FromJSON json data = Some parsed /\
                 Validate (setIdentity c parsed) <> None.

(** Two messages that differ at most in their two identity fields. *)
Definition sameButIdentity (m1 m2 : Message) : Prop :=
  MessageID m1 = MessageID m2 /\ RoomID m1 = RoomID m2 /\
  Type_ m1 = Type_ m2 /\ Content m1 = Content m2 /\
  Timestamp m1 = Timestamp m2.

End client.

(* ===================================================================== *)
(** ** Package [hub] *)
(* ===================================================================== *)

Module hub.

(** The identity of a value of interface type [Client] (a pointer): the key
    of the membership map. Every handle denotes an object. *)
Abbreviation handle := nat.

(** [type Client interface]. *)
Class Client (T : Type) : Type := {
  Send : T -> bytes -> Chan.result T;
  Close : T -> Chan.result T;
  ID : T -> string
}.

(** A value of type [any]: a pointer to an object whose type has the three
    methods, the nil interface, or a value of some other dynamic type. *)
Inductive any : Type :=
| AnyClient (c : handle)
| AnyNil
| AnyOther (dynamicType : string).

(** The type assertion [client.(Client)]. *)
Definition asClient (client : any) : option handle :=
  match client with
  | AnyClient c => Some c
  | AnyNil | AnyOther _ => None
  end.

Section Hub.

Context {T : Type} `{!Client T}.

(** [type Hub struct], with the objects its handles point to ([heap]) and
    whether [Run] is executing its loop ([running]). The channels [register]
    and [unregister] are unbuffered and never closed, so they carry no
    state: a send on one of them completes exactly when [Run] is at its
    [select], and [Run] then executes that case. The mutex only orders
    [ClientCount] against the loop. *)
Record Hub : Type := mkHub {
  clients : gmap handle bool;
  broadcast : Chan.chan bytes;
  done : Chan.chan unit;
  running : bool;
  heap : handle -> T
}.

(** [func New(logger) *Hub]. *)
Definition New (objects : handle -> T) : Hub :=
  {| clients := ∅;
     broadcast := Chan.make 256;
     done := Chan.make 0;
     running := false;
     heap := objects |}.

(** [go h.Run()]: the loop reaches its [select]. *)
Definition goRun (h : Hub) : Hub :=
  mkHub (clients h) (broadcast h) (done h) true (heap h).

(** [func (h *Hub) ClientCount() int]. *)
Definition ClientCount (h : Hub) : nat := size (clients h).

(** [for client := range h.clients], in the order the model lists the keys. *)
Definition members (h : Hub) : list handle := (map_to_list (clients h)).*1.

(** A method called on each object of a list of handles in turn. *)
Fixpoint forEach (f : T -> Chan.result T) (cs : list handle)
  (objs : handle -> T) : Chan.result (handle -> T) :=
  match cs with
  | [] => mret objs
  | c :: rest => o ← f (objs c); forEach f rest (<[c := o]> objs)
  end.

(** [case client := <-h.register]. *)
Definition Run_register (client : handle) (h : Hub) : Chan.result Hub :=
  mret (mkHub (<[client := true]> (clients h)) (broadcast h) (done h)
          (running h) (heap h)).

(** [case client := <-h.unregister]. *)
Definition Run_unregister (client : handle) (h : Hub) : Chan.result Hub :=
  match clients h !! client with
  | Some _ =>
      o ← Close (heap h client);
      mret (mkHub (delete client (clients h)) (broadcast h) (done h)
              (running h) (<[client := o]> (heap h)))
  | None => mret h
  end.

(** [case message := <-h.broadcast]. *)
Definition Run_broadcast (h : Hub) : Chan.result Hub :=
  '(ch, v) ← Chan.recv (broadcast h);
  objs ← forEach (fun o => Send o (default [] v)) (members h) (heap h);
  mret (mkHub (clients h) ch (done h) (running h) objs).

(** [case <-h.done]: every member is closed, the map is replaced by an empty
    one and [Run] returns. *)
Definition Run_done (h : Hub) : Chan.result Hub :=
  '(d, _) ← Chan.recv (done h);
  objs ← forEach Close (members h) (heap h);
  mret (mkHub ∅ (broadcast h) d false objs).

(** [func (h *Hub) Register(client any)]. *)
Definition Register (client : any) (h : Hub) : Chan.result Hub :=
  match asClient client with
  | Some c => if running h then Run_register c h else Chan.Blocked
  | None => mret h
  end.

(** [func (h *Hub) Unregister(client any)]. *)
Definition Unregister (client : any) (h : Hub) : Chan.result Hub :=
  match asClient client with
  | Some c => if running h then Run_unregister c h else Chan.Blocked
  | None => mret h
  end.

(** [func (h *Hub) Broadcast(message []byte)]. *)
Definition Broadcast (message : bytes) (h : Hub) : Chan.result Hub :=
  ch ← Chan.send (broadcast h) message;
  mret (mkHub (clients h) ch (done h) (running h) (heap h)).

(** [func (h *Hub) Shutdown()]. *)
Definition Shutdown (h : Hub) : Chan.result Hub :=
  d ← Chan.close (done h);
  mret (mkHub (clients h) (broadcast h) d (running h) (heap h)).

(** What can happen to a hub whose loop has been started: a goroutine calls
    one of the four methods, or the loop takes one of the two cases of its
    [select] that no caller drives. *)
Inductive event : Type :=
| CallRegister (client : any)
| CallUnregister (client : any)
| CallBroadcast (message : bytes)
| CallShutdown
| LoopBroadcast
| LoopDone.

Definition step (e : event) (h : Hub) : Chan.result Hub :=
  match e with
  | CallRegister client => Register client h
  | CallUnregister client => Unregister client h
  | CallBroadcast message => Broadcast message h
  | CallShutdown => Shutdown h
  | LoopBroadcast => if running h then Run_broadcast h else Chan.Blocked
  | LoopDone => if running h then Run_done h else Chan.Blocked
  end.

(** A schedule: an event that blocks leaves the hub as it is (its goroutine
    stays where it is), a panic ends the program. *)
Fixpoint exec (es : list event) (h : Hub) : Chan.result Hub :=
  match es with
  | [] => mret h
  | e :: rest =>
      match step e h with
      | Chan.Done h1 => exec rest h1
      | Chan.Blocked => exec rest h
      | Chan.Panic => Chan.Panic
      end
  end.

(** What holds of a hub made by [New] and started, whatever happens to it:
    the broadcast channel keeps its 256 slots and stays open, nothing is
    ever sent on [done], and once [Run] has returned the membership map is
    the empty one it left and [done] is closed. *)
Definition wellFormed (h : Hub) : Prop :=
  Chan.cap (broadcast h) = 256 /\
  Chan.closed (broadcast h) = false /\
  Chan.len (broadcast h) <= 256 /\
  Chan.buf (done h) = [] /\
  (running h = false -> clients h = ∅ /\ Chan.closed (done h) = true).

(** What a caller finds once [Shutdown] has taken effect: no member, a loop
    that has returned, a [Register] that blocks when it has a handle to
    send and returns at once when it has none, and a [Broadcast] that
    buffers its payload while fewer than 256 requests are pending and
    blocks when 256 are. *)
Definition shutDown (h : Hub) : Prop :=
  clients h = ∅ /\ ClientCount h = 0 /\ running h = false /\
  (forall c, Register (AnyClient c) h = Chan.Blocked) /\
  (forall v, asClient v = None -> Register v h = Chan.Done h) /\
  (forall m,
     (Chan.len (broadcast h) < 256 ->
        exists h', Broadcast m h = Chan.Done h' /\ clients h' = ∅ /\
          Chan.buf (broadcast h') = (Chan.buf (broadcast h) ++ [m])%list) /\
     (256 <= Chan.len (broadcast h) -> Broadcast m h = Chan.Blocked)) /\
  Chan.len (broadcast h) <= 256.

End Hub.

End hub.

(** [*client.Client] has the three methods of [hub.Client]. *)
#[global] Instance Client_hub_Client : hub.Client client.Client :=
  {| hub.Send := client.Send; hub.Close := client.Close; hub.ID := client.ID |}.

(* ===================================================================== *)
(** ** The mock client of [hub_test.go] *)
(* ===================================================================== *)

Module hub_test.

Record mockClient : Type := mkMock {
  id : string;
  messages : list bytes;
  closed : bool
}.

Definition newMockClient (id : string) : mockClient :=
  {| id := id; messages := []; closed := false |}.

Definition mock_Send (m : mockClient) (data : bytes)
  : Chan.result mockClient :=
  if negb (closed m)
  then mret (mkMock (id m) (messages m ++ [data]) (closed m))
  else mret m.

Definition mock_Close (m : mockClient) : Chan.result mockClient :=
  mret (mkMock (id m) (messages m) true).

#[global] Instance mockClient_hub_Client : hub.Client mockClient :=
  {| hub.Send := mock_Send; hub.Close := mock_Close; hub.ID := id |}.

End hub_test.

(* ===================================================================== *)
(** ** Frames, connections and hubs used in the examples *)
(* ===================================================================== *)

Module fixtures.

Import message.

(** The text of a flat JSON object whose values are strings. *)
Definition quote : string := String (ascii_of_nat 34) "".

Definition jstring (s : string) : string := quote ++ s ++ quote.

Definition jobject (fields : list (string * string)) : string :=
  "{" ++ String.concat ","
           (map (fun kv => jstring (fst kv) ++ ":" ++ jstring (snd kv)) fields)
      ++ "}".

Definition frame (text : string) : bytes := String.list_byte_of_string text.

Definition chatFrame (user name content timestamp : string) : string :=
  jobject [("messageId", ""); ("roomId", ""); ("type", "chat");
           ("userId", user); ("username", name); ("content", content);
           ("timestamp", timestamp)].

Definition chatMessage (user name content : string) (t : Time) : Message :=
  {| MessageID := ""; RoomID := ""; Type_ := TypeChat;
     UserID := user; Username := name; Content := content;
     Timestamp := t |}.

(** 1999-12-31T23:59:59+02:00. *)
Definition backdated : Time :=
  {| instant := 946677599; location := FixedZone 7200 |}.

(** How [encoding/json] reads the frames of the examples, and writes the
    messages they stand for. Any other text does not parse. *)
Definition knownFrames : list (string * Message) :=
  [ (chatFrame "fakeUser" "FakeName" "Hello" "0001-01-01T00:00:00Z",
     chatMessage "fakeUser" "FakeName" "Hello" zeroTime);
    (chatFrame "eve" "Eve" "Hello" "0001-01-01T00:00:00Z",
     chatMessage "eve" "Eve" "Hello" zeroTime);
    (chatFrame "actualUser" "ActualName" "Hello" "0001-01-01T00:00:00Z",
     chatMessage "actualUser" "ActualName" "Hello" zeroTime);
    (chatFrame "" "alice" "" "0001-01-01T00:00:00Z",
     chatMessage "" "alice" "" zeroTime);
    (chatFrame "actualUser" "ActualName" "" "0001-01-01T00:00:00Z",
     chatMessage "actualUser" "ActualName" "" zeroTime);
    (chatFrame "mallory" "Mallory" "hi" "1999-12-31T23:59:59+02:00",
     chatMessage "mallory" "Mallory" "hi" backdated);
    (chatFrame "actualUser" "ActualName" "hi" "1999-12-31T23:59:59+02:00",
     chatMessage "actualUser" "ActualName" "hi" backdated) ].

Fixpoint decodeWith (table : list (string * Message)) (text : string)
  : option Message :=
  match table with
  | [] => None
  | (t, m) :: rest => if (t =? text)%string then Some m else decodeWith rest text
  end.

Fixpoint encodeWith (table : list (string * Message)) (m : Message)
  : option bytes :=
  match table with
  | [] => None
  | (t, m') :: rest =>
      if bool_decide (m' = m) then Some (frame t) else encodeWith rest m
  end.

Definition sampleJSON : Codec :=
  {| Marshal := encodeWith knownFrames;
     Unmarshal := fun data =>
       decodeWith knownFrames (String.string_of_list_byte data) |}.

(** The connection of [TestClient_MetadataOverride]. *)
Definition actual : client.Client :=
  client.New "client-1" "actualUser" "ActualName".

(** The same connection after [Close]. *)
Definition actualClosed : client.Client :=
  {| client.send := Chan.mkChan [] client.sendBufferSize true;
     client.id := "client-1";
     client.username := "ActualName";
     client.userID := "actualUser" |}.

(** [Send] called [n] times in a row with the same payload. *)
Fixpoint sendMany (n : nat) (data : bytes) (c : client.Client)
  : Chan.result client.Client :=
  match n with
  | O => mret c
  | S k => c' ← client.Send c data; sendMany k data c'
  end.

(** A hub whose loop runs and whose handles all denote fresh connections. *)
Definition hub0 : hub.Hub (T := client.Client) :=
  hub.goRun (hub.New (fun _ => actual)).

(** [hub0] once [Shutdown] has been called and the loop has left. *)
Definition hubDown : hub.Hub (T := client.Client) :=
  {| hub.clients := ∅;
     hub.broadcast := Chan.make 256;
     hub.done := Chan.mkChan [] 0 true;
     hub.running := false;
     hub.heap := fun _ => actual |}.

End fixtures.

(* ===================================================================== *)
(** ** Package [client]: the outbound pump *)
(* ===================================================================== *)

Module outbound.

Import client.

(** Time allowed to write a message to the peer, time allowed to read the
    next pong, and the period of the pings, in seconds. *)
Definition writeWait : Z := 10.
Definition pongWait : Z := 60.
Definition pingPeriod : Z := (pongWait * 9) / 10.

(** The byte written between two payloads of one text message. *)
Definition newline : Byte.byte := Byte.x0a.

(** What happens on the outbound side of a connection, in order: what the
    pump does to the transport and to its ticker, and what [Send] did with
    each payload it was given (queued it, or logged that it dropped it). *)
Inductive out : Type :=
| SetWriteDeadline
| WriteCloseMessage
| WriteText (frame : bytes) (flushed : bool)
| WritePing (ok : bool)
| TickerStop
| ConnClose
| Queued (data : bytes)
| Dropped (data : bytes).

(** The case of [writePump]'s [select] that is taken, with the results of
    the transport calls it makes: [NextWriter] and the writer's [Close] for
    the queue case, [WriteMessage] of the ping for the ticker case. *)
Inductive turn : Type :=
| FromQueue (writerOk flushOk : bool)
| FromTicker (pingOk : bool).

(** The loop [for i := 0; i < n; i++] of the queue case: a newline and the
    next queued payload are written to the writer [w], [n] times. *)
Fixpoint coalesce (n : nat) (ch : Chan.chan bytes) (w : bytes)
  : Chan.result (Chan.chan bytes * bytes) :=
  match n with
  | O => mret (ch, w)
  | S k =>
      '(ch1, v) ← Chan.recv ch;
      coalesce k ch1 (w ++ [newline] ++ default [] v)
  end.

Definition withSend (ch : Chan.chan bytes) (c : Client) : Client :=
  mkClient ch (id c) (username c) (userID c).

(** One iteration of [writePump]'s loop: what it does, the connection it
    leaves, and whether [writePump] returns. No [Send] runs between the
    receive that starts the queue case and the end of its loop. *)
Definition writePump_turn (t : turn) (c : Client)
  : Chan.result (list out * Client * bool) :=
  match t with
  | FromQueue writerOk flushOk =>
      '(ch, v) ← Chan.recv (send c);
      match v with
      | None => mret ([SetWriteDeadline; WriteCloseMessage], withSend ch c, true)
      | Some message =>
          if negb writerOk
          then mret ([SetWriteDeadline], withSend ch c, true)
          else
            '(ch', w) ← coalesce (Chan.len ch) ch message;
            mret ([SetWriteDeadline; WriteText w flushOk],
                  withSend ch' c, negb flushOk)
      end
  | FromTicker pingOk =>
      mret ([SetWriteDeadline; WritePing pingOk], c, negb pingOk)
  end.

(** What happens to a connection: the hub hands it a payload, the hub
    closes it, or its outbound pump takes a case of its [select]. *)
Inductive ev : Type :=
| Deliver (data : bytes)
| Terminate
| Wake (t : turn).

(** A schedule of such events, from a connection whose pump is running
    ([live]) or has returned. A case that is not ready is not taken; when
    the pump returns, its deferred function stops the ticker and closes the
    transport. *)
Fixpoint run (evs : list ev) (live : bool) (c : Client)
  : Chan.result (list out * Client * bool) :=
  match evs with
  | [] => mret ([], c, live)
  | Deliver data :: rest =>
      c1 ← Send c data;
      '(tr, c2, l) ← run rest live c1;
      mret ((if (length (pending c) <? length (pending c1))%nat
             then Queued data else Dropped data) :: tr, c2, l)
  | Terminate :: rest => c1 ← Close c; run rest live c1
  | Wake t :: rest =>
      if live then
        match writePump_turn t c with
        | Chan.Done (tr1, c1, returns) =>
            '(tr, c2, l) ← run rest (negb returns) c1;
            mret ((tr1 ++ (if returns then [TickerStop; ConnClose] else [])
                   ++ tr)%list, c2, l)
        | Chan.Blocked => run rest live c
        | Chan.Panic => Chan.Panic
        end
      else run rest live c
  end.

(** [func (c *Client) writePump()], run against the cases its [select]
    takes. *)
Definition writePump (turns : list turn) (c : Client)
  : Chan.result (list out * Client * bool) :=
  run (Wake <$> turns) true c.

(** [strings.Join(payloads, "\n")] on byte slices. *)
Definition joinLines (payloads : list bytes) : bytes :=
  match payloads with
  | [] => []
  | first :: rest => (first ++ flat_map (fun p => newline :: p) rest)%list
  end.

(** The text messages that were written and flushed, the payloads that
    were queued, in order. *)
Fixpoint texts (tr : list out) : list bytes :=
  match tr with
  | [] => []
  | WriteText frame true :: rest => frame :: texts rest
  | _ :: rest => texts rest
  end.

Fixpoint queued (tr : list out) : list bytes :=
  match tr with
  | [] => []
  | Queued data :: rest => data :: queued rest
  | _ :: rest => queued rest
  end.

(** Every transport call of the schedule succeeds. *)
Definition turnOk (t : turn) : bool :=
  match t with
  | FromQueue writerOk flushOk => writerOk && flushOk
  | FromTicker pingOk => pingOk
  end.

Definition writesOk (evs : list ev) : Prop :=
  forall t, Wake t ∈ evs -> turnOk t = true.

(** [frames] carry [payloads]: the payloads, cut into consecutive blocks
    that are not empty, each block written as one frame with a newline
    between its payloads. *)
Inductive carries : list bytes -> list bytes -> Prop :=
| carries_nil : carries [] []
| carries_block first rest frames payloads :
    carries frames payloads ->
    carries (joinLines (first :: rest) :: frames)
            (first :: rest ++ payloads).

End outbound.

(* ===================================================================== *)
(** ** What the inbound pump is expected to let through *)
(* ===================================================================== *)

Module inbound.

Import message client.

(** The payload a frame is answered with, if any: the serialization of its
    message under the connection's identity, when the frame parses, the
    message validates and the serialization succeeds. *)
Definition accepted (json : Codec) (c : Client) (data : bytes)
  : option bytes :=
  parsed ← FromJSON json data;
  match Validate (setIdentity c parsed) with
  | None => ToJSON json (setIdentity c parsed)
  | Some _ => None
  end.

(** The frames read before the first read error. *)
Fixpoint framesRead (reads : list read) : list bytes :=
  match reads with
  | Frame data :: rest => data :: framesRead rest
  | ReadError _ :: _ | [] => []
  end.

(** A read error has been read. *)
Fixpoint ended (reads : list read) : bool :=
  match reads with
  | [] => false
  | ReadError _ :: _ => true
  | Frame _ :: rest => ended rest
  end.

(** One call of the pump, made by the connection whose handle is [me]:
    [Broadcast] and [Unregister] are the hub's methods, which may block;
    the transport and the logger always return. *)
Definition perform1 (me : hub.handle) (e : effect)
  (h : hub.Hub (T := Client)) : Chan.result (hub.Hub (T := Client)) :=
  match e with
  | HubBroadcast payload => hub.Broadcast payload h
  | HubUnregister => hub.Unregister (hub.AnyClient me) h
  | ConnClose | LogWarn _ | LogError _ => mret h
  end.

(** The calls of a trace carried out in order by the pump alone, with no
    step of the loop or of another goroutine in between: a call that
    cannot return in the state it finds, or makes the hub panic, is where
    the pump stays, and the calls after it are not made. The result is
    the calls that returned, and the hub they leave or what stopped the
    pump. *)
Fixpoint perform (me : hub.handle) (trace : list effect)
  (h : hub.Hub (T := Client))
  : list effect * Chan.result (hub.Hub (T := Client)) :=
  match trace with
  | [] => ([], mret h)
  | e :: rest =>
      match perform1 me e h with
      | Chan.Done h1 =>
          let '(returned, r) := perform me rest h1 in (e :: returned, r)
      | Chan.Blocked => ([], Chan.Blocked)
      | Chan.Panic => ([], Chan.Panic)
      end
  end.

(** The hub with further broadcast requests waiting. *)
Definition requested (h : hub.Hub (T := Client)) (payloads : list bytes)
  : hub.Hub (T := Client) :=
  hub.mkHub (hub.clients h)
    (Chan.mkChan (Chan.buf (hub.broadcast h) ++ payloads)
       (Chan.cap (hub.broadcast h)) false)
    (hub.done h) (hub.running h) (hub.heap h).

(** The inbound pump of the connection at handle [me], against the hub. *)
Definition run (json : Codec) (me : hub.handle) (reads : list read)
  (h : hub.Hub (T := Client))
  : list effect * Chan.result (hub.Hub (T := Client)) :=
  perform me (readPump json (hub.heap h me) reads) h.

End inbound.

(* ===================================================================== *)
(** ** The server's handler ([cmd/server]) *)
(* ===================================================================== *)

Module server.

(** [url.Values]: the values given to each key of the query string. *)
Abbreviation Values := (gmap string (list string)).

(** [Values.Get]: the first value of the key, empty when there is none. *)
Definition Values_Get (query : Values) (key : string) : string :=
  match query !! key with
  | Some (v :: _) => v
  | Some [] | None => ""
  end.

(** [func (s *Server) handleWebSocket(w, r)]: the connection it registers
    with the hub and starts, if the upgrade succeeds. [upgraded] is the
    outcome of [upgrader.Upgrade], [newID] the result of [generateID()]. *)
Definition handleWebSocket (query : Values) (upgraded : bool)
  (newID : string) : option client.Client :=
  let userID := Values_Get query "userId" in
  let username := Values_Get query "username" in
  let userID := if userID =? "" then "anonymous" else userID in
  let username := if username =? "" then "Anonymous" else username in
  if upgraded then Some (client.New newID userID username) else None.

(** [slog.Level], as [main] chooses it from the configuration:
    [switch cfg.LogLevel] with the cases "debug", "warn" and "error" over
    the initial value [slog.LevelInfo]. *)
Inductive Level : Set :=
| LevelDebug
| LevelInfo
| LevelWarn
| LevelError.

Definition logLevel (cfg : config.Config) : Level :=
  if config.LogLevel cfg =? "debug" then LevelDebug
  else if config.LogLevel cfg =? "warn" then LevelWarn
  else if config.LogLevel cfg =? "error" then LevelError
  else LevelInfo.

(** The address [main] listens on. *)
Definition Addr (cfg : config.Config) : string := ":" ++ config.Port cfg.

End server.

(* ===================================================================== *)
(** ** Package [storage] *)
(* ===================================================================== *)

Module storage.

Import message.

Definition TableName : string := "chat-messages".
Definition AttrMessageID : string := "MessageID".
Definition AttrRoomID : string := "RoomID".
Definition AttrType : string := "Type".
Definition AttrUserID : string := "UserID".
Definition AttrUsername : string := "Username".
Definition AttrContent : string := "Content".
Definition AttrTimestamp : string := "Timestamp".
Definition IndexUserTimestamp : string := "UserID-Timestamp-index".
Definition IndexRoomTimestamp : string := "RoomID-Timestamp-index".
Definition DefaultRoomID : string := "global".

(** [type TableSchema struct] and [func GetTableSchema() TableSchema]. *)
Record TableSchema : Set := mkTableSchema {
  TableName_ : string;
  PartitionKey : string;
  SortKey : string;
  GSI1PartitionKey : string;
  GSI1SortKey : string;
  GSI1Name : string;
  GSI2PartitionKey : string;
  GSI2SortKey : string;
  GSI2Name : string
}.

Definition GetTableSchema : TableSchema :=
  {| TableName_ := TableName;
     PartitionKey := AttrRoomID;
     SortKey := AttrMessageID;
     GSI1PartitionKey := AttrUserID;
     GSI1SortKey := AttrTimestamp;
     GSI1Name := IndexUserTimestamp;
     GSI2PartitionKey := AttrRoomID;
     GSI2SortKey := AttrTimestamp;
     GSI2Name := IndexRoomTimestamp |}.

(** How [NewDynamoDBRepository] (and the table initialisation script) sets
    up the AWS client from the configuration: the region, the credentials
    provider, and the base endpoint when one is set. *)
Inductive Credentials : Type :=
| StaticCredentials (key secret session : string)
| DefaultChain.

Record ClientOptions : Type := mkClientOptions {
  Region : string;
  Provider : Credentials;
  BaseEndpoint : option string
}.

Definition clientOptions (cfg : config.Config) : ClientOptions :=
  {| Region := config.DynamoDBRegion cfg;
     Provider :=
       if negb (config.DynamoDBEndpoint cfg =? "")
       then StaticCredentials (config.AWSAccessKey cfg)
              (config.AWSSecretKey cfg) ""
       else DefaultChain;
     BaseEndpoint :=
       if negb (config.DynamoDBEndpoint cfg =? "")
       then Some (config.DynamoDBEndpoint cfg) else None |}.

(** Go's conversion [int32(n)] of an [int]. *)
Definition int32 (n : Z) : Z := ((n + 2 ^ 31) mod 2 ^ 32 - 2 ^ 31)%Z.

(** The request of a query by one key of an index, as the repository
    builds it. *)
Record QueryInput : Type := mkQuery {
  queryTable : string;
  queryIndex : string;
  queryKey : string;
  queryValue : string;
  ScanIndexForward : bool;
  Limit : Z
}.

Inductive error : Type :=
| ErrMarshal
| ErrSave
| ErrQuery.

Section Repository.

(** The items of the table, and the parts of the AWS SDK the repository
    calls: the two conversions of [attributevalue], which can fail, and the
    answers of DynamoDB to a put and to a query. *)
Variable Item : Type.
Variable MarshalMap : Message -> option Item.
Variable UnmarshalMap : Item -> option Message.
Variable PutItem : string -> Item -> bool.
Variable Query : QueryInput -> option (list Item).

(** The two defaults [SaveMessage] writes into the message it is given. *)
Definition withDefaults (newUUID : string) (msg : Message) : Message :=
  let msg :=
    if MessageID msg =? ""
    then mkMessage newUUID (RoomID msg) (Type_ msg) (UserID msg)
           (Username msg) (Content msg) (Timestamp msg)
    else msg in
  if RoomID msg =? ""
  then mkMessage (MessageID msg) DefaultRoomID (Type_ msg) (UserID msg)
         (Username msg) (Content msg) (Timestamp msg)
  else msg.

(** [func (r *DynamoDBRepository) SaveMessage(ctx, msg) error]: the message
    as the call leaves it (it is updated in place), and the error
    returned. [newUUID] is the result of [uuid.New().String()]. *)
Definition SaveMessage (newUUID : string) (msg : Message)
  : Message * option error :=
  let msg := withDefaults newUUID msg in
  match MarshalMap msg with
  | None => (msg, Some ErrMarshal)
  | Some item =>
      if PutItem TableName item then (msg, None) else (msg, Some ErrSave)
  end.

(** The loop that unmarshals the items of an answer: an item that fails is
    logged and skipped. *)
Fixpoint unmarshalAll (items : list Item) : list Message :=
  match items with
  | [] => []
  | item :: rest =>
      match UnmarshalMap item with
      | Some msg => msg :: unmarshalAll rest
      | None => unmarshalAll rest
      end
  end.

(** The loop [for i, j := 0, len(messages)-1; i < j; i, j = i+1, j-1] that
    swaps [messages[i]] and [messages[j]]; an index out of range panics
    ([None]). [fuel] bounds the number of iterations. *)
Fixpoint reverseLoop (fuel : nat) (i j : Z) (messages : list Message)
  : option (list Message) :=
  if (i <? j)%Z then
    match fuel with
    | O => None
    | S fuel' =>
        match messages !! Z.to_nat i, messages !! Z.to_nat j with
        | Some mi, Some mj =>
            reverseLoop fuel' (i + 1) (j - 1)
              (<[Z.to_nat i := mj]> (<[Z.to_nat j := mi]> messages))
        | _, _ => None
        end
    end
  else Some messages.

Definition reverseInPlace (messages : list Message)
  : option (list Message) :=
  reverseLoop (length messages) 0 (Z.of_nat (length messages) - 1) messages.

(** The request of [GetRecentMessages]. *)
Definition recentQuery (roomID : string) (limit : Z) : QueryInput :=
  let roomID := if roomID =? "" then DefaultRoomID else roomID in
  {| queryTable := TableName;
     queryIndex := IndexRoomTimestamp;
     queryKey := AttrRoomID;
     queryValue := roomID;
     ScanIndexForward := false;
     Limit := int32 limit |}.

(** [func (r *DynamoDBRepository) GetRecentMessages(ctx, roomID, limit)]:
    [inl] the messages, [inr] the error. *)
Definition GetRecentMessages (roomID : string) (limit : Z)
  : option (list Message) + error :=
  match Query (recentQuery roomID limit) with
  | None => inr ErrQuery
  | Some items => inl (reverseInPlace (unmarshalAll items))
  end.

(** The request of [GetMessagesByUser]. *)
Definition userQuery (userID : string) (limit : Z) : QueryInput :=
  {| queryTable := TableName;
     queryIndex := IndexUserTimestamp;
     queryKey := AttrUserID;
     queryValue := userID;
     ScanIndexForward := true;
     Limit := int32 limit |}.

(** [func (r *DynamoDBRepository) GetMessagesByUser(ctx, userID, limit)]. *)
Definition GetMessagesByUser (userID : string) (limit : Z)
  : list Message + error :=
  match Query (userQuery userID limit) with
  | None => inr ErrQuery
  | Some items => inl (unmarshalAll items)
  end.

End Repository.

(** Oldest first, by the instant of the timestamp. *)
Definition notAfter (m1 m2 : Message) : Prop :=
  (instant (Timestamp m1) <= instant (Timestamp m2))%Z.

(** What DynamoDB does with [ScanIndexForward] on an index whose range key
    is the timestamp: the items of an answer come by ascending timestamp
    when it is true and by descending timestamp when it is false. *)
Definition honoursOrder {Item : Type}
  (UnmarshalMap : Item -> option Message)
  (Query : QueryInput -> option (list Item)) : Prop :=
  forall q items,
    Query q = Some items ->
    Sorted (if ScanIndexForward q then notAfter else flip notAfter)
      (omap UnmarshalMap items).

End storage.

(* ===================================================================== *)
(** ** The table initialisation ([scripts/init-dynamodb.go]) *)
(* ===================================================================== *)

Module initdb.

Import storage.

Inductive ScalarAttributeType : Set :=
| ScalarAttributeTypeS
| ScalarAttributeTypeN
| ScalarAttributeTypeB.

Inductive KeyType : Set :=
| KeyTypeHash
| KeyTypeRange.

Record AttributeDefinition : Set := mkAttribute {
  AttributeName : string;
  AttributeType : ScalarAttributeType
}.

Record KeySchemaElement : Set := mkKey {
  KeyAttribute : string;
  KeyType_ : KeyType
}.

Record ProvisionedThroughput : Set := mkThroughput {
  ReadCapacityUnits : Z;
  WriteCapacityUnits : Z
}.

(** Every index of the script projects all attributes. *)
Record GlobalSecondaryIndex : Set := mkIndex {
  IndexName : string;
  IndexKeySchema : list KeySchemaElement;
  IndexThroughput : ProvisionedThroughput
}.

Record CreateTableInput : Set := mkCreateTable {
  CreateTableName : string;
  AttributeDefinitions : list AttributeDefinition;
  KeySchema : list KeySchemaElement;
  GlobalSecondaryIndexes : list GlobalSecondaryIndex;
  Throughput : ProvisionedThroughput
}.

(** The request [createTableInput] that [main] builds from the schema. *)
Definition createTableInput (schema : TableSchema) : CreateTableInput :=
  {| CreateTableName := TableName_ schema;
     AttributeDefinitions :=
       [mkAttribute (PartitionKey schema) ScalarAttributeTypeS;
        mkAttribute (SortKey schema) ScalarAttributeTypeS;
        mkAttribute (GSI1PartitionKey schema) ScalarAttributeTypeS;
        mkAttribute (GSI1SortKey schema) ScalarAttributeTypeS];
     KeySchema :=
       [mkKey (PartitionKey schema) KeyTypeHash;
        mkKey (SortKey schema) KeyTypeRange];
     GlobalSecondaryIndexes :=
       [mkIndex (GSI1Name schema)
          [mkKey (GSI1PartitionKey schema) KeyTypeHash;
           mkKey (GSI1SortKey schema) KeyTypeRange]
          (mkThroughput 5 5);
        mkIndex (GSI2Name schema)
          [mkKey (GSI2PartitionKey schema) KeyTypeHash;
           mkKey (GSI2SortKey schema) KeyTypeRange]
          (mkThroughput 5 5)];
     Throughput := mkThroughput 5 5 |}.

(** The attributes a request declares, and the attributes its key schemas
    (of the table and of the indexes) use. *)
Definition declared (input : CreateTableInput) : list string :=
  AttributeName <$> AttributeDefinitions input.

Definition keyAttributes (input : CreateTableInput) : list string :=
  (KeyAttribute <$> KeySchema input) ++
  (idx ← GlobalSecondaryIndexes input; KeyAttribute <$> IndexKeySchema idx).

(** The index of the request with a given name, if any. *)
Definition indexNamed (input : CreateTableInput) (name : string)
  : option GlobalSecondaryIndex :=
  snd <$> list_find (fun idx => bool_decide (IndexName idx = name))
            (GlobalSecondaryIndexes input).

End initdb.

(* ===================================================================== *)
(** ** Waiting for the database ([scripts/wait-for-dynamodb.sh]) *)
(* ===================================================================== *)

Module scripts.

(** [max_attempts="${3:-30}"]: the third argument, 30 when it is unset or
    empty. The argument is taken to be a decimal numeral. *)
Definition max_attempts (arg3 : option Z) : Z := default 30%Z arg3.

(** The integers of bash have 64 bits. *)
Definition fits64 (n : Z) : bool := ((- 2 ^ 63 <=? n) && (n <? 2 ^ 63))%Z.

(** [$((n))]: arithmetic wraps around. *)
Definition int64 (n : Z) : Z := ((n + 2 ^ 63) mod 2 ^ 64 - 2 ^ 63)%Z.

(** [[ $a -lt $b ]]: the comparison, or [None] when an operand does not
    fit 64 bits: the test then prints "integer expression expected" and
    fails with status 2. *)
Definition test_lt (a b : Z) : option bool :=
  if fits64 a && fits64 b then Some (a <? b)%Z else None.

(** The loop [while [ $attempt -lt $max_attempts ]], which is left when
    the test fails, with status 1 or 2 alike: a probe with [curl] that
    succeeds ends the script with [exit 0]; one that fails adds one to
    [attempt] and sleeps two seconds. After the loop comes [exit 1].
    [curl k] is the outcome of the probe made after [k] failed ones. The
    result is the exit status and the value of [attempt], which is the
    number of sleeps. [fuel] bounds the number of iterations. *)
Fixpoint waitLoop (fuel : nat) (attempt max : Z) (curl : Z -> bool)
  : option (Z * Z) :=
  match test_lt attempt max with
  | Some true =>
      match fuel with
      | O => None
      | S fuel' =>
          if curl attempt then Some (0%Z, attempt)
          else waitLoop fuel' (int64 (attempt + 1)) max curl
      end
  | Some false | None => Some (1%Z, attempt)
  end.

Definition wait_for_dynamodb (arg3 : option Z) (curl : Z -> bool)
  : option (Z * Z) :=
  waitLoop (Z.to_nat (max_attempts arg3)) 0 (max_attempts arg3) curl.

End scripts.

(* ===================================================================== *)
(** ** Membership as a set *)
(* ===================================================================== *)

Module membership.

(** What an event does to the set of registered handles while the loop
    runs: a registration adds its handle, an unregistration removes it, and
    nothing else touches the set. *)
Definition after (s : gset hub.handle) (e : hub.event) : gset hub.handle :=
  match e with
  | hub.CallRegister (hub.AnyClient c) => {[c]} ∪ s
  | hub.CallUnregister (hub.AnyClient c) => s ∖ {[c]}
  | _ => s
  end.

Definition afterAll (es : list hub.event) (s : gset hub.handle)
  : gset hub.handle :=
  foldl after s es.

(** The schedule never lets the loop take its done case. *)
Definition staysUp (es : list hub.event) : Prop := hub.LoopDone ∉ es.

End membership.

(* ===================================================================== *)
(** ** More connections and schedules used in the examples *)
(* ===================================================================== *)

Module samples.

(** The connection of the examples with two payloads queued. *)
Definition twoQueued : client.Client :=
  {| client.send :=
       Chan.mkChan [fixtures.frame "one"; fixtures.frame "two"]
         client.sendBufferSize false;
     client.id := "client-1";
     client.username := "ActualName";
     client.userID := "actualUser" |}.

(** Two deliveries, a queue turn, a third delivery, termination, and two
    more queue turns. *)
Definition busySchedule : list outbound.ev :=
  [outbound.Deliver (fixtures.frame "one");
   outbound.Deliver (fixtures.frame "two");
   outbound.Wake (outbound.FromQueue true true);
   outbound.Deliver (fixtures.frame "three");
   outbound.Terminate;
   outbound.Wake (outbound.FromQueue true true);
   outbound.Wake (outbound.FromQueue true true)].

(** Handles 1 and 2 register, 1 leaves, a non-member leaves and 2
    registers again, with a broadcast in between. *)
Definition churn : list hub.event :=
  [hub.CallRegister (hub.AnyClient 1); hub.CallRegister (hub.AnyClient 2);
   hub.CallBroadcast (fixtures.frame "hello");
   hub.CallUnregister (hub.AnyClient 1);
   hub.CallUnregister (hub.AnyClient 5);
   hub.CallRegister (hub.AnyClient 2)].

(** A running hub whose only member, handle 1, has two payloads queued. *)
Definition oneMember : hub.Hub (T := client.Client) :=
  hub.mkHub {[ 1 := true ]} (Chan.make 256) (Chan.make 0) true
    (fun _ => twoQueued).

(** A running hub with members 1, 2 and 3, all fresh connections. *)
Definition threeMembers : hub.Hub (T := client.Client) :=
  hub.mkHub {[ 1 := true; 2 := true; 3 := true ]} (Chan.make 256)
    (Chan.make 0) true (fun _ => fixtures.actual).

(** What a connection reads: a frame under a false name, a frame that does
    not parse, a second frame under a false name, and the end. *)
Definition conversation : list client.read :=
  [client.Frame (fixtures.frame
     (fixtures.chatFrame "mallory" "Mallory" "hi" "1999-12-31T23:59:59+02:00"));
   client.Frame (fixtures.frame "invalid json");
   client.Frame (fixtures.frame
     (fixtures.chatFrame "fakeUser" "FakeName" "Hello" "0001-01-01T00:00:00Z"));
   client.ReadError false].

(** A query string with a user id and an empty user name. *)
Definition aliceQuery : server.Values :=
  {[ "userId" := ["alice"; "bob"]; "username" := [""] ]}.

(** A repository over a table that keeps messages as they are, accepts
    every put, and answers the query for the room "global" with three
    items, the newest first, one of which does not unmarshal. *)
Definition storedItems : list (option message.Message) :=
  [Some (fixtures.chatMessage "u" "U" "third" (message.mkTime 30 message.UTC));
   None;
   Some (fixtures.chatMessage "u" "U" "second" (message.mkTime 20 message.UTC));
   Some (fixtures.chatMessage "u" "U" "first" (message.mkTime 10 message.UTC))].

(** A chat message as the constructors leave it: no identifier, no room. *)
Definition unsaved : message.Message :=
  fixtures.chatMessage "u" "U" "first" (message.mkTime 10 message.UTC).

Definition sampleMarshal (msg : message.Message)
  : option (option message.Message) := Some (Some msg).

Definition samplePut (table : string) (item : option message.Message)
  : bool := true.

(** The same table behind a service that answers in the order it is asked
    for. *)
Definition orderedQuery (q : storage.QueryInput)
  : option (list (option message.Message)) :=
  if storage.queryValue q =? "global"
  then Some (if storage.ScanIndexForward q then reverse storedItems
             else storedItems)
  else None.

Definition sampleQuery (q : storage.QueryInput)
  : option (list (option message.Message)) :=
  if storage.queryValue q =? "global" then Some storedItems else None.

End samples.

(* ===================================================================== *)
(** ** Characters *)
(* ===================================================================== *)

Module unicode.

(** A byte that continues a character of a text in UTF-8: 10xxxxxx. *)
Definition continues (b : ascii) : bool :=
  (128 <=? nat_of_ascii b)%nat && (nat_of_ascii b <? 192)%nat.

(** The number of characters of a text, as the design document and the
    README count the length of a user name and of a content: the number
    of bytes of its UTF-8 form that do not continue a character. *)
Fixpoint characters (s : string) : nat :=
  match s with
  | EmptyString => 0
  | String b rest => ((if continues b then 0 else 1) + characters rest)%nat
  end.

(** A text of ASCII characters only: every byte is below 128. *)
Fixpoint isASCII (s : string) : bool :=
  match s with
  | EmptyString => true
  | String b rest => (nat_of_ascii b <? 128)%nat && isASCII rest
  end.

(** [strings.Repeat(s, n)]. *)
Fixpoint Repeat (s : string) (n : nat) : string :=
  match n with
  | O => ""
  | S k => s ++ Repeat s k
  end.

(** U+00E9, e with an acute accent: the two bytes C3 A9. *)
Definition eAcute : string :=
  String (ascii_of_nat 195) (String (ascii_of_nat 169) "").

(** U+20AC, the euro sign: the three bytes E2 82 AC. *)
Definition euroSign : string :=
  String (ascii_of_nat 226)
    (String (ascii_of_nat 130) (String (ascii_of_nat 172) "")).

(** A user name of 26 characters and a content of 334 characters. *)
Definition accentedName : string := Repeat eAcute 26.
Definition euroContent : string := Repeat euroSign 334.

End unicode.

(* ===================================================================== *)
(** ** Properties of [message] *)
(* ===================================================================== *)

Module message_facts.

Import message.

(** Every boolean test of [Validate] is replaced by the proposition it
    decides. *)
Ltac validate_tests :=
  repeat match goal with
    | |- context [String.eqb ?a ?b] => destruct (String.eqb_spec a b)
    | |- context [Nat.ltb ?a ?b] => destruct (Nat.ltb_spec a b)
    end; simpl.

(** [Validate] checks the violations in a fixed order and returns the
    first one: an unrecognised type; else an empty username; else a
    username longer than 50; else, for type chat only, an empty content and
    then a content longer than 1000; otherwise it accepts. A chat message
    whose content has length 1001 is rejected, one whose content has length
    1000 is accepted, and a join message with an empty content is accepted
    (the two latter with a username that passes). Lengths are Go's [len],
    a number of bytes. *)
Theorem Validate_first_violation (m : Message) :
  (~ KnownType (Type_ m) -> Validate m = Some ErrInvalidType) /\
  (KnownType (Type_ m) -> Username m = "" ->
     Validate m = Some ErrEmptyUsername) /\
  (KnownType (Type_ m) -> Username m <> "" ->
     (50 < String.length (Username m))%nat ->
     Validate m = Some ErrUsernameTooLong) /\
  (Type_ m = TypeChat -> Username m <> "" ->
     (String.length (Username m) <= 50)%nat -> Content m = "" ->
     Validate m = Some ErrEmptyContent) /\
  (Type_ m = TypeChat -> Username m <> "" ->
     (String.length (Username m) <= 50)%nat -> Content m <> "" ->
     (1000 < String.length (Content m))%nat ->
     Validate m = Some ErrContentTooLong) /\
  (Type_ m = TypeChat -> Username m <> "" ->
     (String.length (Username m) <= 50)%nat -> Content m <> "" ->
     (String.length (Content m) <= 1000)%nat ->
     Validate m = None) /\
  (KnownType (Type_ m) -> Type_ m <> TypeChat -> Username m <> "" ->
     (String.length (Username m) <= 50)%nat ->
     Validate m = None) /\
  (Type_ m = TypeChat -> String.length (Content m) = 1001%nat ->
     Validate m <> None) /\
  (Type_ m = TypeChat -> Username m <> "" ->
     (String.length (Username m) <= 50)%nat ->
     String.length (Content m) = 1000%nat ->
     Validate m = None) /\
  (Type_ m = TypeJoin -> Username m <> "" ->
     (String.length (Username m) <= 50)%nat -> Content m = "" ->
     Validate m = None).
Proof.
  unfold Validate, KnownType, MaxUsernameLength, MaxContentLength,
    TypeChat, TypeSystem, TypeJoin, TypeLeave.
  repeat split; intros; validate_tests;
    try reflexivity; try congruence; try lia; try tauto;
    try discriminate.
  all: match goal with
       | H : Content ?x = _, L : String.length (Content ?x) = _ |- _ =>
           rewrite H in L; simpl in L; lia
       | H : Content ?x = _, L : (_ < String.length (Content ?x))%nat |- _ =>
           rewrite H in L; simpl in L; lia
       | |- _ => idtac
       end.
Qed.

(** The cases of [TestMessage_Validate]. *)
Example Validate_content_1001 :
  Validate (fixtures.chatMessage "" "alice" (repeat_a 1001) zeroTime)
  = Some ErrContentTooLong.
Proof. vm_compute. reflexivity. Qed.

Example Validate_content_1000 :
  Validate (fixtures.chatMessage "" "alice" (repeat_a 1000) zeroTime) = None.
Proof. vm_compute. reflexivity. Qed.

Example Validate_join_empty_content :
  Validate {| MessageID := ""; RoomID := ""; Type_ := TypeJoin; UserID := "";
              Username := "alice"; Content := ""; Timestamp := zeroTime |}
  = None.
Proof. reflexivity. Qed.

Example Validate_username_51 :
  Validate (fixtures.chatMessage "" (repeat_a 51) "hello" zeroTime)
  = Some ErrUsernameTooLong.
Proof. reflexivity. Qed.

Example Validate_invalid_type_first :
  Validate {| MessageID := ""; RoomID := ""; Type_ := "invalid"; UserID := "";
              Username := ""; Content := ""; Timestamp := zeroTime |}
  = Some ErrInvalidType.
Proof. reflexivity. Qed.

Example Validate_empty_username_before_content :
  Validate (fixtures.chatMessage "" "" "" zeroTime) = Some ErrEmptyUsername.
Proof. reflexivity. Qed.

(** A text has at most as many characters as bytes, and as many when it
    is ASCII. *)
Lemma characters_le_length (s : string) :
  (unicode.characters s <= String.length s)%nat.
Proof.
  induction s as [|b s IH]; simpl; [lia |].
  destruct (unicode.continues b); lia.
Qed.

Lemma characters_ascii (s : string) :
  unicode.isASCII s = true -> unicode.characters s = String.length s.
Proof.
  induction s as [|b s IH]; simpl; [reflexivity |].
  intros Hascii. apply andb_true_iff in Hascii as [Hb Hs].
  apply Nat.ltb_lt in Hb. rewrite (IH Hs). unfold unicode.continues.
  destruct (Nat.leb_spec 128 (nat_of_ascii b)); [lia | reflexivity].
Qed.

(** C1. The two bounds of [Validate] are bounds on the number of bytes,
    not of characters. For a chat message with a username and a content,
    [Validate] accepts exactly when the username has at most 50 bytes and
    the content at most 1000, and it rejects a longer username as too long
    and then a longer content as too long, in the order of the claim. A
    text never has more characters than bytes, so a message that passes is
    within the bounds counted in characters, and on ASCII text the two
    counts agree; but a username of at most 50 characters, or a content of
    at most 1000, is rejected as too long when its characters take more
    bytes than that. *)
Theorem Validate_counts_bytes (m : Message) :
  Type_ m = TypeChat -> Username m <> "" -> Content m <> "" ->
  (Validate m = None <->
     (String.length (Username m) <= 50)%nat /\
     (String.length (Content m) <= 1000)%nat) /\
  ((50 < String.length (Username m))%nat ->
     Validate m = Some ErrUsernameTooLong) /\
  ((String.length (Username m) <= 50)%nat ->
   (1000 < String.length (Content m))%nat ->
     Validate m = Some ErrContentTooLong) /\
  (Validate m = None ->
     (unicode.characters (Username m) <= 50)%nat /\
     (unicode.characters (Content m) <= 1000)%nat) /\
  (unicode.isASCII (Username m) = true ->
   unicode.isASCII (Content m) = true ->
     (Validate m = None <->
        (unicode.characters (Username m) <= 50)%nat /\
        (unicode.characters (Content m) <= 1000)%nat)).
Proof.
  intros Hchat Hname Hcontent.
  assert (Hiff : Validate m = None <->
                 (String.length (Username m) <= 50)%nat /\
                 (String.length (Content m) <= 1000)%nat).
  { unfold Validate, MaxUsernameLength, MaxContentLength. rewrite Hchat.
    simpl.
    destruct (String.eqb_spec (Username m) ""); [contradiction |].
    destruct (String.eqb_spec (Content m) ""); [contradiction |].
    destruct (Nat.ltb_spec 50 (String.length (Username m)));
      [split; [discriminate | lia] |].
    destruct (Nat.ltb_spec 1000 (String.length (Content m)));
      [split; [discriminate | lia] |].
    split; [intros _; lia | reflexivity]. }
  split; [exact Hiff |].
  destruct (Validate_first_violation m)
    as (_ & _ & Hlong & _ & Hcontentlong & _).
  split; [intros Hlen; apply Hlong; auto; left; exact Hchat |].
  split; [intros Hlen Hlen'; apply Hcontentlong; auto |].
  split.
  - intros Hok. apply Hiff in Hok as [Hu Hc].
    pose proof (characters_le_length (Username m)).
    pose proof (characters_le_length (Content m)).
    split; lia.
  - intros Hu Hc.
    rewrite (characters_ascii _ Hu), (characters_ascii _ Hc). exact Hiff.
Qed.

(** A username of 26 accented letters and a content of 334 euro signs are
    within the bounds counted in characters, and are rejected. *)
Lemma Validate_counts_bytes_accented_name :
  unicode.characters unicode.accentedName = 26%nat /\
  String.length unicode.accentedName = 52%nat /\
  Validate (fixtures.chatMessage "u1" unicode.accentedName "hi" zeroTime)
  = Some ErrUsernameTooLong /\
  unicode.characters unicode.euroContent = 334%nat /\
  String.length unicode.euroContent = 1002%nat /\
  Validate (fixtures.chatMessage "u1" "alice" unicode.euroContent zeroTime)
  = Some ErrContentTooLong.
Proof.
  split; [reflexivity |]. split; [reflexivity |].
  split.
  { apply (Validate_counts_bytes
             (fixtures.chatMessage "u1" unicode.accentedName "hi" zeroTime));
      [reflexivity | discriminate | discriminate | vm_compute; lia]. }
  split; [vm_compute; reflexivity |]. split; [vm_compute; reflexivity |].
  apply (Validate_counts_bytes
           (fixtures.chatMessage "u1" "alice" unicode.euroContent zeroTime));
    [reflexivity | discriminate | discriminate | vm_compute; lia
    | vm_compute; lia].
Defined.

(** [TestNewChatMessage]: the constructor stamps the server's clock,
    presented in UTC. *)
Example NewChatMessage_timestamp (now : Time) :
  Timestamp (NewChatMessage now "user123" "alice" "Hello world")
  = {| instant := instant now; location := UTC |}.
Proof. reflexivity. Qed.

End message_facts.

(* ===================================================================== *)
(** ** Properties of [config] *)
(* ===================================================================== *)

Module config_facts.

Import config.

Lemma getEnv_unset (env : environ) (key d : string) :
  env !! key = None -> getEnv env key d = d.
Proof. intros Hk. unfold getEnv, Getenv. rewrite Hk. reflexivity. Qed.

Lemma getEnv_empty (env : environ) (key d : string) :
  env !! key = Some "" -> getEnv env key d = d.
Proof. intros Hk. unfold getEnv, Getenv. rewrite Hk. reflexivity. Qed.

Lemma getEnv_set (env : environ) (key d v : string) :
  env !! key = Some v -> v <> "" -> getEnv env key d = v.
Proof.
  intros Hk Hv. unfold getEnv, Getenv. rewrite Hk. simpl.
  destruct (String.eqb_spec v ""); [contradiction | reflexivity].
Qed.

Lemma getEnv_value_or_default (env : environ) (key d : string) :
  getEnv env key d = value_or_default env key d.
Proof.
  unfold value_or_default.
  destruct (env !! key) as [[|a v]|] eqn:Hk.
  - apply getEnv_empty, Hk.
  - apply (getEnv_set env key d _ Hk). discriminate.
  - apply getEnv_unset, Hk.
Qed.

(** C10. [getEnv] returns the default when the variable is unset and also
    when it is set to the empty string, and returns any non-empty value
    verbatim; so does every field of [Load], with its own key and default. *)
Theorem getEnv_empty_is_absent (env : environ) (key d : string) :
  (env !! key = None -> getEnv env key d = d) /\
  (env !! key = Some "" -> getEnv env key d = d) /\
  (forall v, env !! key = Some v -> v <> "" -> getEnv env key d = v) /\
  Port (Load env) = value_or_default env "PORT" "8080" /\
  DynamoDBEndpoint (Load env) =
    value_or_default env "DYNAMODB_ENDPOINT" "http://localhost:8000" /\
  DynamoDBRegion (Load env) =
    value_or_default env "DYNAMODB_REGION" "us-east-1" /\
  AWSAccessKey (Load env) = value_or_default env "AWS_ACCESS_KEY_ID" "dummy" /\
  AWSSecretKey (Load env) =
    value_or_default env "AWS_SECRET_ACCESS_KEY" "dummy" /\
  LogLevel (Load env) = value_or_default env "LOG_LEVEL" "info".
Proof.
  split; [apply getEnv_unset |].
  split; [apply getEnv_empty |].
  split; [intros v; apply getEnv_set |].
  unfold Load; simpl.
  repeat split; apply getEnv_value_or_default.
Qed.

(** [TestGetEnv_EmptyString] and [TestLoad_PartialEnvironment]. *)
Example getEnv_EMPTY_VAR :
  getEnv {[ "EMPTY_VAR" := "" ]} "EMPTY_VAR" "default" = "default".
Proof. reflexivity. Qed.

Example Load_partial_environment :
  Load {[ "PORT" := "3000"; "LOG_LEVEL" := "" ]} =
  {| Port := "3000";
     DynamoDBEndpoint := "http://localhost:8000";
     DynamoDBRegion := "us-east-1";
     AWSAccessKey := "dummy";
     AWSSecretKey := "dummy";
     LogLevel := "info" |}.
Proof. vm_compute. reflexivity. Qed.

End config_facts.

(* ===================================================================== *)
(** ** Properties of the inbound pump *)
(* ===================================================================== *)

Module pump_facts.

Import message client.

Section Pump.

Variable json : Codec.
Variable c : Client.

Lemma broadcasts_app (t1 t2 : list effect) :
  broadcasts (t1 ++ t2) = (broadcasts t1 ++ broadcasts t2)%list.
Proof.
  induction t1 as [|e t1 IH]; [reflexivity |].
  destruct e; simpl; rewrite ?IH; reflexivity.
Qed.

(** The only broadcast a frame can cause, and what it takes. *)
Lemma readPump_frame_inv (data payload : bytes) :
  payload ∈ broadcasts (readPump_frame json c data) ->
  exists parsed,
    FromJSON json data = Some parsed /\
    Validate (setIdentity c parsed) = None /\
    ToJSON json (setIdentity c parsed) = Some payload.
Proof.
  unfold readPump_frame.
  destruct (FromJSON json data) as [parsed|]; simpl.
  2: { intros Hin. inversion Hin. }
  destruct (Validate (setIdentity c parsed)) eqn:Hv; simpl.
  { intros Hin. inversion Hin. }
  destruct (ToJSON json (setIdentity c parsed)) as [out|] eqn:Hj; simpl.
  2: { intros Hin. inversion Hin. }
  intros Hin. apply list_elem_of_singleton in Hin. subst out.
  exists parsed. auto.
Qed.

Lemma readPump_frame_rejected (data : bytes) :
  rejected json c data -> broadcasts (readPump_frame json c data) = [].
Proof.
  unfold rejected, readPump_frame.
  intros [Hp | (parsed & Hp & Hv)]; rewrite Hp; [reflexivity |].
  destruct (Validate (setIdentity c parsed)); [reflexivity | congruence].
Qed.

Lemma readPump_inv (reads : list read) (payload : bytes) :
  payload ∈ broadcasts (readPump json c reads) ->
  exists data, Frame data ∈ reads /\
               payload ∈ broadcasts (readPump_frame json c data).
Proof.
  induction reads as [|r reads IH]; simpl.
  - intros Hin. inversion Hin.
  - destruct r as [data | unexpected].
    + rewrite broadcasts_app, elem_of_app. intros [Hin | Hin].
      * exists data. split; [left | exact Hin].
      * destruct (IH Hin) as (d & Hd & Hp).
        exists d. split; [right; exact Hd | exact Hp].
    + destruct unexpected; simpl; intros Hin; inversion Hin.
Qed.

End Pump.

(** C2. Every payload that [readPump] hands to [Broadcast] is the
    serialization of a message that passes [Validate] (the message of one
    of the frames read, carrying the connection's identity); a frame that
    does not parse, or whose message fails the pump's validation, causes no
    broadcast, and a run that reads only such frames broadcasts nothing. *)
Theorem readPump_broadcasts_validated
  (json : Codec) (c : Client) (reads : list read) :
  (forall payload, payload ∈ broadcasts (readPump json c reads) ->
     exists m, ToJSON json m = Some payload /\ Validate m = None /\
       exists data parsed, Frame data ∈ reads /\
         FromJSON json data = Some parsed /\ m = setIdentity c parsed) /\
  (forall data, rejected json c data ->
     broadcasts (readPump_frame json c data) = []) /\
  ((forall data, Frame data ∈ reads -> rejected json c data) ->
     broadcasts (readPump json c reads) = []).
Proof.
  split; [| split].
  - intros payload Hin.
    destruct (readPump_inv json c reads payload Hin) as (data & Hd & Hp).
    destruct (readPump_frame_inv json c data payload Hp)
      as (parsed & Hparse & Hvalid & Hjson).
    exists (setIdentity c parsed). repeat split; try assumption.
    exists data, parsed. auto.
  - apply readPump_frame_rejected.
  - intros Hall.
    destruct (broadcasts (readPump json c reads)) as [|payload rest] eqn:Hb;
      [reflexivity |].
    assert (Hin : payload ∈ broadcasts (readPump json c reads))
      by (rewrite Hb; left).
    destruct (readPump_inv json c reads payload Hin) as (data & Hd & Hp).
    rewrite (readPump_frame_rejected json c data (Hall data Hd)) in Hp.
    inversion Hp.
Qed.

(** C3. What the pump does with a frame's timestamp: the message it
    broadcasts carries the timestamp parsed from the frame, whatever it is;
    the pump reads no clock and normalises nothing. *)
Theorem readPump_timestamp_from_frame
  (json : Codec) (c : Client) (data payload : bytes) (parsed : Message) :
  FromJSON json data = Some parsed ->
  payload ∈ broadcasts (readPump json c [Frame data]) ->
  exists m, ToJSON json m = Some payload /\
            Timestamp m = Timestamp parsed.
Proof.
  intros Hparse Hin. simpl in Hin. rewrite app_nil_r in Hin.
  destruct (readPump_frame_inv json c data payload Hin)
    as (parsed' & Hparse' & _ & Hjson).
  rewrite Hparse in Hparse'. injection Hparse' as <-.
  exists (setIdentity c parsed). split; [exact Hjson | reflexivity].
Qed.

(** A frame dated 1999 in a zone two hours east of UTC, sent on the
    connection of [actualUser]: it is broadcast with that timestamp. *)
Lemma readPump_timestamp_from_frame_backdated :
  let data := fixtures.frame
    (fixtures.chatFrame "mallory" "Mallory" "hi" "1999-12-31T23:59:59+02:00") in
  let payload := fixtures.frame
    (fixtures.chatFrame "actualUser" "ActualName" "hi"
       "1999-12-31T23:59:59+02:00") in
  broadcasts (readPump fixtures.sampleJSON fixtures.actual [Frame data])
    = [payload] /\
  exists m, ToJSON fixtures.sampleJSON m = Some payload /\
            Timestamp m = fixtures.backdated.
Proof.
  split; [vm_compute; reflexivity |].
  apply (readPump_timestamp_from_frame fixtures.sampleJSON fixtures.actual
           (fixtures.frame (fixtures.chatFrame "mallory" "Mallory" "hi"
                              "1999-12-31T23:59:59+02:00"))
           _ (fixtures.chatMessage "mallory" "Mallory" "hi" fixtures.backdated)).
  - vm_compute. reflexivity.
  - vm_compute. left.
Defined.

Lemma setIdentity_sameButIdentity (c : Client) (m1 m2 : Message) :
  sameButIdentity m1 m2 -> setIdentity c m1 = setIdentity c m2.
Proof.
  intros (Hid & Hroom & Htype & Hcontent & Htime).
  unfold setIdentity. rewrite Hid, Hroom, Htype, Hcontent, Htime.
  reflexivity.
Qed.

Lemma readPump_frame_sameButIdentity
  (json : Codec) (c : Client) (d1 d2 : bytes) (m1 m2 : Message) :
  FromJSON json d1 = Some m1 -> FromJSON json d2 = Some m2 ->
  sameButIdentity m1 m2 ->
  readPump_frame json c d1 = readPump_frame json c d2.
Proof.
  intros H1 H2 Hsame. unfold readPump_frame. rewrite H1, H2.
  rewrite (setIdentity_sameButIdentity c m1 m2 Hsame). reflexivity.
Qed.

(** C4. Two frames that parse to messages differing at most in [UserID] and
    [Username] make the pump of one connection do exactly the same thing,
    alone or at the same place of any run; and whatever a frame causes to
    be broadcast is the serialization of a message whose [UserID] and
    [Username] are those given to the connection when it was made. *)
Theorem readPump_identity_from_connection
  (json : Codec) (c : Client) (d1 d2 : bytes) (m1 m2 : Message) :
  FromJSON json d1 = Some m1 ->
  FromJSON json d2 = Some m2 ->
  sameButIdentity m1 m2 ->
  readPump_frame json c d1 = readPump_frame json c d2 /\
  (forall before after,
     readPump json c (before ++ Frame d1 :: after) =
     readPump json c (before ++ Frame d2 :: after)) /\
  (forall payload, payload ∈ broadcasts (readPump_frame json c d1) ->
     exists m, ToJSON json m = Some payload /\
       UserID m = userID c /\ Username m = username c /\
       sameButIdentity m m1 /\ sameButIdentity m m2).
Proof.
  intros H1 H2 Hsame.
  pose proof (readPump_frame_sameButIdentity json c d1 d2 m1 m2 H1 H2 Hsame)
    as Hframe.
  split; [exact Hframe | split].
  - intros before after.
    induction before as [|r before IH]; simpl.
    + rewrite Hframe. reflexivity.
    + destruct r as [data | unexpected]; [rewrite IH |]; reflexivity.
  - intros payload Hin.
    destruct (readPump_frame_inv json c d1 payload Hin)
      as (parsed & Hparse & _ & Hjson).
    rewrite H1 in Hparse. injection Hparse as <-.
    exists (setIdentity c m1).
    split; [exact Hjson |].
    split; [reflexivity |]. split; [reflexivity |].
    destruct Hsame as (Hid & Hroom & Htype & Hcontent & Htime).
    unfold sameButIdentity; simpl. repeat split; congruence.
Qed.

(** The frame of [TestClient_MetadataOverride] and the same frame under
    another assumed name. *)
Lemma readPump_identity_from_connection_fake_names :
  let d1 := fixtures.frame
    (fixtures.chatFrame "fakeUser" "FakeName" "Hello" "0001-01-01T00:00:00Z") in
  let d2 := fixtures.frame
    (fixtures.chatFrame "eve" "Eve" "Hello" "0001-01-01T00:00:00Z") in
  broadcasts (readPump_frame fixtures.sampleJSON fixtures.actual d1) =
    [fixtures.frame (fixtures.chatFrame "actualUser" "ActualName" "Hello"
                       "0001-01-01T00:00:00Z")] /\
  readPump_frame fixtures.sampleJSON fixtures.actual d1 =
  readPump_frame fixtures.sampleJSON fixtures.actual d2.
Proof.
  split; [vm_compute; reflexivity |].
  apply (readPump_identity_from_connection fixtures.sampleJSON fixtures.actual
           _ _ (fixtures.chatMessage "fakeUser" "FakeName" "Hello" zeroTime)
           (fixtures.chatMessage "eve" "Eve" "Hello" zeroTime)).
  - vm_compute. reflexivity.
  - vm_compute. reflexivity.
  - unfold sameButIdentity. simpl. repeat split; reflexivity.
Defined.

(** [TestClient_ValidationFailed] and [TestClient_InvalidMessage]. *)
Example readPump_empty_content_dropped :
  readPump fixtures.sampleJSON fixtures.actual
    [Frame (fixtures.frame
              (fixtures.chatFrame "" "alice" "" "0001-01-01T00:00:00Z"))]
  = [LogWarn "message validation failed"].
Proof. vm_compute. reflexivity. Qed.

Example readPump_invalid_json_dropped :
  readPump fixtures.sampleJSON fixtures.actual
    [Frame (fixtures.frame "invalid json"); ReadError false]
  = [LogWarn "invalid message format"; HubUnregister; ConnClose].
Proof. vm_compute. reflexivity. Qed.

End pump_facts.

(* ===================================================================== *)
(** ** Properties of the private outbound queue *)
(* ===================================================================== *)

Module client_facts.

Import client.

(** The queue of a connection is made with room for 256 payloads, and no
    method changes that. *)
Lemma New_cap (newID user name : string) :
  Chan.cap (send (New newID user name)) = sendBufferSize.
Proof. reflexivity. Qed.

Lemma Send_cap (c c' : Client) (data : bytes) :
  Send c data = Chan.Done c' -> Chan.cap (send c') = Chan.cap (send c).
Proof.
  unfold Send, Chan.trySend.
  destruct (Chan.closed (send c)); [discriminate |].
  destruct (Chan.len (send c) <? Chan.cap (send c))%nat; simpl;
    intros [= <-]; reflexivity.
Qed.

Lemma Close_cap (c c' : Client) :
  Close c = Chan.Done c' -> Chan.cap (send c') = Chan.cap (send c).
Proof.
  unfold Close, Chan.close.
  destruct (Chan.closed (send c)); [discriminate |].
  simpl. intros [= <-]. reflexivity.
Qed.

Lemma Send_closed (c : Client) (data : bytes) :
  Chan.closed (send c) = true -> Send c data = Chan.Panic.
Proof. intros Hc. unfold Send, Chan.trySend. rewrite Hc. reflexivity. Qed.

(** C5, as amended. On a connection whose queue has not been closed,
    [Send] never blocks and never panics: with fewer than 256 payloads
    pending it appends the payload at the tail of the queue, and with a full
    queue it returns leaving the connection as it was (the payload is
    dropped). On a connection whose queue has been closed it panics. *)
Theorem Send_open_queue (c : Client) (data : bytes) :
  Chan.cap (send c) = sendBufferSize ->
  (isOpen c -> length (pending c) < 256 ->
     exists c', Send c data = Chan.Done c' /\
                pending c' = (pending c ++ [data])%list /\
                isOpen c' /\
                Chan.cap (send c') = sendBufferSize /\
                id c' = id c /\ username c' = username c /\
                userID c' = userID c) /\
  (isOpen c -> 256 <= length (pending c) -> Send c data = Chan.Done c) /\
  (Chan.closed (send c) = true -> Send c data = Chan.Panic).
Proof.
  intros Hcap. unfold isOpen.
  split; [| split]; [| | apply Send_closed].
  - intros Hopen Hlen.
    unfold Send, Chan.trySend, pending, Chan.len in *.
    rewrite Hopen, Hcap. unfold sendBufferSize.
    apply Nat.ltb_lt in Hlen. rewrite Hlen. simpl.
    eexists. split; [reflexivity |]. simpl.
    repeat split; assumption.
  - intros Hopen Hlen.
    unfold Send, Chan.trySend, pending, Chan.len in *.
    rewrite Hopen, Hcap. unfold sendBufferSize.
    apply Nat.ltb_ge in Hlen. rewrite Hlen. reflexivity.
Qed.

Lemma Send_open_queue_first_payload :
  exists c', Send fixtures.actual (fixtures.frame "test message")
               = Chan.Done c' /\
             pending c' = [fixtures.frame "test message"].
Proof.
  assert (Hlen : length (pending fixtures.actual) < 256) by (simpl; lia).
  destruct (proj1 (Send_open_queue fixtures.actual
                     (fixtures.frame "test message") eq_refl) eq_refl Hlen)
    as (c' & Hsend & Hpending & _).
  exists c'. split; [exact Hsend | exact Hpending].
Defined.

(** C5, as stated, fails on a connection that has been closed: its queue
    is empty, so it holds fewer payloads than its capacity, and [Send]
    panics instead of queueing the payload. *)
Lemma Send_closed_queue_panics :
  Close fixtures.actual = Chan.Done fixtures.actualClosed /\
  length (pending fixtures.actualClosed) < 256 /\
  Chan.cap (send fixtures.actualClosed) = 256 /\
  Send fixtures.actualClosed (fixtures.frame "test message") = Chan.Panic.
Proof. repeat split. simpl. lia. Qed.

(** [TestClient_SendBufferFull]: 266 payloads sent to a connection nobody
    reads from; 256 are queued, the last 10 are dropped, nothing panics. *)
Example Send_buffer_full :
  exists c', fixtures.sendMany 266 (fixtures.frame "x") fixtures.actual
               = Chan.Done c' /\
             length (pending c') = 256.
Proof. eexists. split; vm_compute; reflexivity. Qed.

End client_facts.

(* ===================================================================== *)
(** ** Properties of the hub *)
(* ===================================================================== *)

Module hub_facts.

Import hub.

Section Membership.

Context {T : Type} `{!Client T}.

Implicit Types (h : Hub (T := T)) (c : handle).

Lemma members_NoDup h : NoDup (members h).
Proof. unfold members. apply NoDup_fst_map_to_list. Qed.

Lemma members_dom h c : c ∈ members h <-> c ∈ dom (clients h).
Proof.
  unfold members. rewrite elem_of_dom, list_elem_of_fmap. split.
  - intros ([k v] & -> & Hkv). apply elem_of_map_to_list in Hkv.
    simpl. eauto.
  - intros [v Hv]. exists (c, v). split; [reflexivity |].
    apply elem_of_map_to_list. exact Hv.
Qed.

(** C8. Register is idempotent. In every state of the hub and for every
    handle, the register case of the loop succeeds, and taking it again for
    the same handle leaves the hub as the first time left it: the same
    membership and the same count, the handle listed once. Registering a
    handle that is already a member leaves the membership set and the count
    unchanged. While the loop runs, a call of [Register] is that case. *)
Theorem Register_idempotent h c :
  exists h1,
    Run_register c h = Chan.Done h1 /\
    Run_register c h1 = Chan.Done h1 /\
    c ∈ members h1 /\ NoDup (members h1) /\
    (c ∈ dom (clients h) ->
       dom (clients h1) = dom (clients h) /\
       ClientCount h1 = ClientCount h) /\
    (c ∉ dom (clients h) -> ClientCount h1 = S (ClientCount h)) /\
    (clients h !! c = Some true -> h1 = h) /\
    (running h = true ->
       Register (AnyClient c) h = Chan.Done h1 /\
       Register (AnyClient c) h1 = Chan.Done h1 /\
       exec [CallRegister (AnyClient c); CallRegister (AnyClient c)] h
         = exec [CallRegister (AnyClient c)] h).
Proof.
  exists (mkHub (<[c := true]> (clients h)) (broadcast h) (done h)
            (running h) (heap h)).
  assert (Hsecond : Run_register c
                      (mkHub (<[c := true]> (clients h)) (broadcast h)
                         (done h) (running h) (heap h))
                    = Chan.Done (mkHub (<[c := true]> (clients h))
                                   (broadcast h) (done h) (running h)
                                   (heap h))).
  { unfold Run_register; simpl. rewrite insert_insert_eq. reflexivity. }
  split; [reflexivity |]. split; [exact Hsecond |].
  split.
  { apply members_dom; simpl. rewrite dom_insert_L.
    apply elem_of_union; left. apply elem_of_singleton. reflexivity. }
  split; [apply members_NoDup |].
  split; [| split; [| split]].
  - intros Hin. simpl. split.
    + apply dom_insert_lookup_L. apply elem_of_dom. exact Hin.
    + unfold ClientCount; simpl. apply map_size_insert_Some.
      apply elem_of_dom. exact Hin.
  - intros Hout. unfold ClientCount; simpl. apply map_size_insert_None.
    apply not_elem_of_dom. exact Hout.
  - intros Hin. destruct h as [cl b d r hp]; simpl in *.
    rewrite (insert_id cl c true Hin). reflexivity.
  - intros Hrun.
    assert (Hfirst : Register (AnyClient c) h = Run_register c h).
    { unfold Register; simpl. rewrite Hrun. reflexivity. }
    assert (Hagain : Register (AnyClient c)
                       (mkHub (<[c := true]> (clients h)) (broadcast h)
                          (done h) (running h) (heap h))
                     = Chan.Done (mkHub (<[c := true]> (clients h))
                                    (broadcast h) (done h) (running h)
                                    (heap h))).
    { unfold Register; simpl. rewrite Hrun at 1. exact Hsecond. }
    split; [exact Hfirst |]. split; [exact Hagain |].
    simpl. rewrite Hfirst. unfold Run_register at 1 2.
    change (mret ?x) with (Chan.Done x).
    cbv beta iota. rewrite Hagain. reflexivity.
Qed.

(** C9. An argument that does not hold a value implementing [Client] makes
    [Register] and [Unregister] return at once with the hub untouched:
    nothing is sent to the loop (the call returns even when no loop is
    there to receive), membership is unchanged and nothing panics. *)
Theorem Register_not_a_Client_is_noop h (v : any) :
  asClient v = None ->
  Register v h = Chan.Done h /\
  Unregister v h = Chan.Done h /\
  exec [CallRegister v; CallUnregister v] h = Chan.Done h.
Proof.
  intros Hno. unfold exec, step, Register, Unregister.
  rewrite Hno. simpl. auto.
Qed.

Lemma Unregister_twice h c h1 :
  Unregister (AnyClient c) h = Chan.Done h1 ->
  Unregister (AnyClient c) h1 = Chan.Done h1 /\ clients h1 !! c = None.
Proof.
  unfold Unregister; simpl.
  destruct (running h) eqn:Hrun; [| discriminate].
  unfold Run_unregister.
  destruct (clients h !! c) as [present|] eqn:Hc.
  - destruct (Close (heap h c)) as [o| |]; simpl; try discriminate.
    intros [= <-]; simpl. rewrite Hrun, lookup_delete_eq. auto.
  - intros [= <-]. rewrite Hrun, Hc. auto.
Qed.

(** *** Calling a method on every member *)

(** When [f] completes with [g o] on every object [o] that satisfies [P],
    calling it on distinct handles whose objects satisfy [P] completes, and
    changes exactly the objects of those handles. *)
Lemma forEach_Done (f : T -> Chan.result T) (g : T -> T) (P : T -> Prop)
  (cs : list handle) (objs : handle -> T) :
  (forall o, P o -> f o = Chan.Done (g o)) ->
  NoDup cs ->
  (forall c, c ∈ cs -> P (objs c)) ->
  exists objs',
    forEach f cs objs = Chan.Done objs' /\
    forall c, objs' c = if bool_decide (c ∈ cs) then g (objs c) else objs c.
Proof.
  intros Hf. revert objs.
  induction cs as [|c cs IH]; intros objs Hnodup HP.
  - exists objs. split; [reflexivity |]. intros c.
    case_bool_decide as Hin; [inversion Hin | reflexivity].
  - apply list.NoDup_cons in Hnodup as [Hfresh Hnodup].
    destruct (IH (<[c := g (objs c)]> objs) Hnodup) as (objs' & Hrun & Hobjs).
    { intros c' Hin. rewrite fn_lookup_insert_ne.
      - apply HP. right. exact Hin.
      - intros ->. contradiction. }
    exists objs'. split.
    { simpl. rewrite (Hf (objs c)) by (apply HP; left). exact Hrun. }
    intros x. rewrite Hobjs. destruct (decide (x = c)) as [-> | Hne].
    + rewrite fn_lookup_insert.
      repeat case_bool_decide; try reflexivity; try contradiction.
      exfalso. match goal with H : ¬ _ |- _ => apply H; left end.
    + rewrite fn_lookup_insert_ne by congruence.
      repeat case_bool_decide; try reflexivity; exfalso.
      * match goal with H : ¬ _ |- _ => apply H; right; assumption end.
      * match goal with
        | H : _ ∈ _ :: _ |- _ => apply elem_of_cons in H as [-> | H]
        end; contradiction.
Qed.

Lemma Unregister_absent h c :
  running h = true -> clients h !! c = None ->
  Unregister (AnyClient c) h = Chan.Done h.
Proof.
  intros Hrun Habsent. unfold Unregister, Run_unregister; simpl.
  rewrite Hrun, Habsent. reflexivity.
Qed.

(** *** The hub after shutdown *)

Lemma wellFormed_start (objs : handle -> T) : wellFormed (goRun (New objs)).
Proof.
  unfold wellFormed, goRun, New, Chan.len; simpl.
  repeat split; try lia; discriminate.
Qed.

Lemma step_wellFormed (e : event) h h1 :
  wellFormed h -> step e h = Chan.Done h1 -> wellFormed h1.
Proof.
  intros Hwf. pose proof Hwf as (Hcap & Hopen & Hlen & Hdone & Hdown).
  destruct e as [v | v | m | | |]; simpl.
  - unfold Register. destruct (asClient v) as [c|].
    + destruct (running h) eqn:Hrun; [| discriminate].
      unfold Run_register. intros [= <-].
      unfold wellFormed; simpl. rewrite Hrun.
      repeat split; auto; discriminate.
    + intros [= <-]. exact Hwf.
  - unfold Unregister. destruct (asClient v) as [c|].
    + destruct (running h) eqn:Hrun; [| discriminate].
      unfold Run_unregister. destruct (clients h !! c).
      * destruct (Close (heap h c)) as [o| |]; simpl; try discriminate.
        intros [= <-]. unfold wellFormed; simpl. rewrite Hrun.
        repeat split; auto; discriminate.
      * intros [= <-]. exact Hwf.
    + intros [= <-]. exact Hwf.
  - unfold Broadcast, Chan.send. rewrite Hopen, Hcap.
    destruct (Nat.ltb_spec (Chan.len (broadcast h)) 256) as [Hroom|];
      simpl; [| discriminate].
    intros [= <-]. unfold wellFormed, Chan.len, Chan.enqueue; simpl.
    unfold Chan.len in Hroom. rewrite length_app; simpl.
    repeat split; auto; try lia; apply Hdown; assumption.
  - unfold Shutdown, Chan.close.
    destruct (Chan.closed (done h)) eqn:Hclosed; simpl; [discriminate |].
    intros [= <-]. unfold wellFormed; simpl.
    repeat split; auto; apply Hdown; assumption.
  - destruct (running h) eqn:Hrun; [| discriminate].
    unfold Run_broadcast, Chan.recv.
    destruct (Chan.buf (broadcast h)) as [|m rest] eqn:Hbuf.
    + rewrite Hopen. discriminate.
    + simpl.
      destruct (forEach (fun o => Send o m) (members h) (heap h))
        as [objs| |]; simpl; try discriminate.
      intros [= <-]. unfold wellFormed, Chan.len; simpl.
      unfold Chan.len in Hlen. rewrite Hbuf in Hlen; simpl in Hlen.
      rewrite Hrun. repeat split; auto; try lia; discriminate.
  - destruct (running h) eqn:Hrun; [| discriminate].
    unfold Run_done, Chan.recv. rewrite Hdone.
    destruct (Chan.closed (done h)) eqn:Hclosed; simpl; [| discriminate].
    destruct (forEach Close (members h) (heap h)) as [objs| |];
      simpl; try discriminate.
    intros [= <-]. unfold wellFormed; simpl. repeat split; auto.
Qed.

Lemma exec_wellFormed (es : list event) h h1 :
  wellFormed h -> exec es h = Chan.Done h1 -> wellFormed h1.
Proof.
  revert h. induction es as [|e es IH]; intros h Hwf; simpl.
  - intros [= <-]. exact Hwf.
  - destruct (step e h) as [h'| |] eqn:Hstep; try discriminate.
    + apply IH. exact (step_wellFormed e h h' Hwf Hstep).
    + apply IH. exact Hwf.
Qed.

(** Once [Run] has returned, nothing starts it again, nothing touches the
    membership map, and a request that was buffered stays where it is. *)
Lemma step_after_return (e : event) h h1 :
  wellFormed h -> running h = false -> step e h = Chan.Done h1 ->
  running h1 = false /\ clients h1 = clients h /\
  Chan.buf (broadcast h) `prefix_of` Chan.buf (broadcast h1).
Proof.
  intros (Hcap & Hopen & Hlen & Hdone & Hdown) Hrun.
  destruct e as [v | v | m | | |]; simpl; rewrite ?Hrun.
  - unfold Register. rewrite Hrun.
    destruct (asClient v); [discriminate |]. intros [= <-]. auto.
  - unfold Unregister. rewrite Hrun.
    destruct (asClient v); [discriminate |]. intros [= <-]. auto.
  - unfold Broadcast, Chan.send. rewrite Hopen.
    destruct (Chan.len (broadcast h) <? Chan.cap (broadcast h))%nat;
      simpl; [| discriminate].
    intros [= <-]; simpl. repeat split; auto.
    apply prefix_app_r. reflexivity.
  - unfold Shutdown, Chan.close.
    destruct (Hdown Hrun) as [_ ->]. discriminate.
  - discriminate.
  - discriminate.
Qed.

Lemma exec_after_return (es : list event) h h1 :
  wellFormed h -> running h = false -> exec es h = Chan.Done h1 ->
  running h1 = false /\ clients h1 = clients h /\
  Chan.buf (broadcast h) `prefix_of` Chan.buf (broadcast h1).
Proof.
  revert h. induction es as [|e es IH]; intros h Hwf Hrun; simpl.
  - intros [= <-]. auto.
  - destruct (step e h) as [h'| |] eqn:Hstep; try discriminate.
    + intros Hexec.
      destruct (step_after_return e h h' Hwf Hrun Hstep)
        as (Hrun' & Hclients & Hprefix).
      destruct (IH h' (step_wellFormed e h h' Hwf Hstep) Hrun' Hexec)
        as (Hrun1 & Hclients1 & Hprefix1).
      repeat split; [assumption | congruence |].
      etransitivity; eassumption.
    + apply IH; assumption.
Qed.

Lemma Register_after_return h c :
  running h = false -> Register (AnyClient c) h = Chan.Blocked.
Proof. intros Hrun. unfold Register; simpl. rewrite Hrun. reflexivity. Qed.

Lemma shutDown_returned h :
  wellFormed h -> running h = false -> shutDown h.
Proof.
  intros Hwf Hrun.
  pose proof Hwf as (Hcap & Hopen & Hlen & Hdone & Hdown).
  destruct (Hdown Hrun) as [Hempty Hclosed].
  unfold shutDown.
  split; [exact Hempty |].
  split; [unfold ClientCount; rewrite Hempty; apply map_size_empty |].
  split; [exact Hrun |].
  split; [intros c; apply Register_after_return, Hrun |].
  split; [intros v Hno; unfold Register; rewrite Hno; reflexivity |].
  split; [| exact Hlen].
  intros m. unfold Broadcast, Chan.send. rewrite Hopen, Hcap. split.
  - intros Hroom. apply Nat.ltb_lt in Hroom. rewrite Hroom; simpl.
    eexists. split; [reflexivity |]. simpl. auto.
  - intros Hfull. apply Nat.ltb_ge in Hfull. rewrite Hfull. reflexivity.
Qed.

(** C7, as amended. Once [Shutdown] has taken effect (the loop of a hub
    made by [New] has taken its done case and returned), the membership set
    is empty and stays so, and no later call panics or changes it. A
    [Register] with a handle does not return: it blocks, now and after
    whatever else is called later. A [Broadcast] returns after buffering its
    payload while fewer than 256 requests are pending, and blocks once 256
    are; the buffered requests are never taken out, and never exceed 256. *)
Theorem after_Shutdown_calls (objs : handle -> T) (es : list event) h :
  exec es (goRun (New objs)) = Chan.Done h ->
  running h = false ->
  shutDown h /\
  forall later h', exec later h = Chan.Done h' ->
    shutDown h' /\
    Chan.buf (broadcast h) `prefix_of` Chan.buf (broadcast h').
Proof.
  intros Hexec Hrun.
  pose proof (exec_wellFormed es _ h (wellFormed_start objs) Hexec) as Hwf.
  split; [exact (shutDown_returned h Hwf Hrun) |].
  intros later h' Hlater.
  destruct (exec_after_return later h h' Hwf Hrun Hlater)
    as (Hrun' & _ & Hprefix).
  split; [| exact Hprefix].
  apply shutDown_returned; [| exact Hrun'].
  exact (exec_wellFormed later h h' Hwf Hlater).
Qed.

End Membership.

(** C8 on the hub of the examples: handle 7 registered twice. *)
Lemma Register_idempotent_handle_7 :
  exists h1,
    Register (AnyClient 7) fixtures.hub0 = Chan.Done h1 /\
    Register (AnyClient 7) h1 = Chan.Done h1 /\
    ClientCount h1 = 1.
Proof.
  destruct (Register_idempotent fixtures.hub0 7)
    as (h1 & Hcase & _ & _ & _ & _ & Hcount & _ & Hcall).
  destruct (Hcall eq_refl) as (Hfirst & Hsecond & _).
  exists h1. split; [exact Hfirst |]. split; [exact Hsecond |].
  rewrite Hcount; [reflexivity |]. vm_compute. intros Hin. inversion Hin.
Defined.

(** C9 on the hub of the examples: a string, and the nil interface. *)
Lemma Register_not_a_Client_is_noop_string :
  Register (AnyOther "string") fixtures.hub0 = Chan.Done fixtures.hub0 /\
  Unregister (AnyOther "string") fixtures.hub0 = Chan.Done fixtures.hub0 /\
  Register AnyNil fixtures.hubDown = Chan.Done fixtures.hubDown.
Proof.
  split; [| split].
  - apply (Register_not_a_Client_is_noop fixtures.hub0 (AnyOther "string")).
    reflexivity.
  - apply (Register_not_a_Client_is_noop fixtures.hub0 (AnyOther "string")).
    reflexivity.
  - apply (Register_not_a_Client_is_noop fixtures.hubDown AnyNil).
    reflexivity.
Defined.

Lemma hubDown_reached :
  exec [CallShutdown; LoopDone] fixtures.hub0 = Chan.Done fixtures.hubDown.
Proof. vm_compute. reflexivity. Qed.

(** C7 on the hub of the examples, shut down while empty. *)
Lemma after_Shutdown_calls_hubDown :
  exec [CallShutdown; LoopDone] fixtures.hub0 = Chan.Done fixtures.hubDown /\
  running fixtures.hubDown = false /\
  ClientCount fixtures.hubDown = 0 /\
  Register (AnyClient 7) fixtures.hubDown = Chan.Blocked.
Proof.
  split; [exact hubDown_reached |]. split; [reflexivity |].
  destruct (after_Shutdown_calls (fun _ => fixtures.actual)
              [CallShutdown; LoopDone] fixtures.hubDown
              hubDown_reached eq_refl)
    as ((_ & Hcount & _ & Hregister & _) & _).
  split; [exact Hcount | exact (Hregister 7)].
Defined.

(** C7, as stated, fails: after [Shutdown] has taken effect a call of
    [Register] with a live connection does not return, and never will,
    whatever is called afterwards. *)
Lemma Register_after_Shutdown_blocks :
  exec [CallShutdown; LoopDone] fixtures.hub0 = Chan.Done fixtures.hubDown /\
  Register (AnyClient 7) fixtures.hubDown = Chan.Blocked /\
  forall later h', exec later fixtures.hubDown = Chan.Done h' ->
                   Register (AnyClient 7) h' = Chan.Blocked.
Proof.
  split; [exact hubDown_reached |]. split; [reflexivity |].
  intros later h' Hlater.
  assert (Hwf : wellFormed fixtures.hubDown).
  { exact (exec_wellFormed _ _ _ (wellFormed_start (fun _ => fixtures.actual))
             hubDown_reached). }
  destruct (exec_after_return later _ h' Hwf eq_refl Hlater) as (Hrun & _).
  apply Register_after_return, Hrun.
Qed.

End hub_facts.

(* ===================================================================== *)
(** ** Terminating a connection *)
(* ===================================================================== *)

Module terminate_facts.

Import client.

Lemma Close_open (c : Client) :
  Chan.closed (send c) = false ->
  Close c = Chan.Done (mkClient (Chan.mkChan (pending c) (Chan.cap (send c)) true)
                         (id c) (username c) (userID c)).
Proof. intros Hopen. unfold Close, Chan.close. rewrite Hopen. reflexivity. Qed.

Lemma Close_closed (c : Client) :
  Chan.closed (send c) = true -> Close c = Chan.Panic.
Proof. intros Hclosed. unfold Close, Chan.close. rewrite Hclosed. reflexivity. Qed.

(** C6, as amended. [Close] closes the queue of a connection on which it
    has not been called, keeping what is pending; called again on the same
    connection it panics, it is not a no-op. What makes termination safe is
    the hub: its unregister case calls [Close] only on a handle that is
    still a member, so unregistering a handle a second time returns with
    the hub untouched and calls nothing. *)
Theorem Close_once_guarded_by_hub
  (c : Client) (h : hub.Hub (T := Client)) (x : hub.handle) :
  (Chan.closed (send c) = false ->
     exists c', Close c = Chan.Done c' /\
                Chan.closed (send c') = true /\
                pending c' = pending c /\
                Close c' = Chan.Panic) /\
  (Chan.closed (send c) = true -> Close c = Chan.Panic) /\
  (forall h1, hub.Unregister (hub.AnyClient x) h = Chan.Done h1 ->
     hub.Unregister (hub.AnyClient x) h1 = Chan.Done h1 /\
     hub.clients h1 !! x = None).
Proof.
  split; [| split].
  - intros Hopen. eexists. split; [apply Close_open, Hopen |].
    simpl. split; [reflexivity |]. split; [reflexivity |].
    apply Close_closed. reflexivity.
  - apply Close_closed.
  - intros h1. apply hub_facts.Unregister_twice.
Qed.

(** C6, as stated, fails: the second [Close] of a connection panics. *)
Lemma Close_twice_panics :
  Close fixtures.actual = Chan.Done fixtures.actualClosed /\
  Close fixtures.actualClosed = Chan.Panic /\
  (c ← Close fixtures.actual; Close c) = Chan.Panic.
Proof. repeat split. Qed.

(** A connection registered, then unregistered twice by racing paths: the
    hub closes it once, and nothing panics. *)
Example Unregister_twice_closes_once :
  exists h, hub.exec [hub.CallRegister (hub.AnyClient 7);
                      hub.CallUnregister (hub.AnyClient 7);
                      hub.CallUnregister (hub.AnyClient 7)] fixtures.hub0
            = Chan.Done h /\
            hub.heap h 7 = fixtures.actualClosed /\ hub.ClientCount h = 0.
Proof. eexists. split; [vm_compute; reflexivity |]. split; reflexivity. Qed.

(** The mock of [hub_test.go] is more lenient than the connection it
    stands for: its [Close] can be repeated. *)
Example mock_Close_twice :
  (m ← hub_test.mock_Close (hub_test.newMockClient "test1");
   hub_test.mock_Close m)
  = Chan.Done (hub_test.mkMock "test1" [] true).
Proof. reflexivity. Qed.

End terminate_facts.

(* ===================================================================== *)
(** ** Fan-out and shutdown over live connections *)
(* ===================================================================== *)

Module fanout_facts.

Import client.

Implicit Types (h : hub.Hub (T := Client)) (c : hub.handle).

Lemma Send_open (data : bytes) (o : Client) :
  isOpen o -> hub.Send o data = Chan.Done (delivered data o).
Proof.
  unfold isOpen. intros Hopen. simpl.
  unfold Send, Chan.trySend, delivered. rewrite Hopen.
  destruct (Chan.len (send o) <? Chan.cap (send o))%nat; reflexivity.
Qed.

Lemma Close_open_terminated (o : Client) :
  isOpen o -> hub.Close o = Chan.Done (terminated o).
Proof. intros Hopen. apply terminate_facts.Close_open, Hopen. Qed.

Lemma members_open h :
  (forall c, c ∈ dom (hub.clients h) -> isOpen (hub.heap h c)) ->
  forall c, c ∈ hub.members h -> isOpen (hub.heap h c).
Proof. intros Hopen c Hin. apply Hopen, hub_facts.members_dom, Hin. Qed.

(** X1. The broadcast case of the loop, over members whose queues are
    open, takes the oldest request and hands it to every member once: a
    member with room gets it at the tail of its queue, a member whose queue
    is full is left as it was (that delivery is dropped) without holding up
    the others, and nothing else changes. *)
Theorem Run_broadcast_fanout h (m : bytes) (rest : list bytes) :
  Chan.buf (hub.broadcast h) = m :: rest ->
  (forall c, c ∈ dom (hub.clients h) -> isOpen (hub.heap h c)) ->
  exists h',
    hub.Run_broadcast h = Chan.Done h' /\
    hub.clients h' = hub.clients h /\
    Chan.buf (hub.broadcast h') = rest /\
    forall c,
      (c ∈ dom (hub.clients h) ->
         Chan.len (send (hub.heap h c)) < Chan.cap (send (hub.heap h c)) ->
         pending (hub.heap h' c) = (pending (hub.heap h c) ++ [m])%list) /\
      (c ∈ dom (hub.clients h) ->
         Chan.cap (send (hub.heap h c)) <= Chan.len (send (hub.heap h c)) ->
         hub.heap h' c = hub.heap h c) /\
      (c ∉ dom (hub.clients h) -> hub.heap h' c = hub.heap h c).
Proof.
  intros Hbuf Hopen.
  destruct (hub_facts.forEach_Done (fun o => hub.Send o m) (delivered m) isOpen
              (hub.members h) (hub.heap h))
    as (objs & Hrun & Hobjs).
  { intros o. apply Send_open. }
  { apply hub_facts.members_NoDup. }
  { apply members_open, Hopen. }
  eexists. split.
  { unfold hub.Run_broadcast, Chan.recv. rewrite Hbuf.
    cbv [mbind Chan.result_bind default from_option Datatypes.id].
    rewrite Hrun. reflexivity. }
  simpl. split; [reflexivity |]. split; [reflexivity |].
  intros c. rewrite Hobjs. unfold delivered.
  repeat split.
  - intros Hin Hroom.
    rewrite bool_decide_eq_true_2 by (apply hub_facts.members_dom, Hin).
    apply Nat.ltb_lt in Hroom. rewrite Hroom. reflexivity.
  - intros Hin Hfull.
    rewrite bool_decide_eq_true_2 by (apply hub_facts.members_dom, Hin).
    apply Nat.ltb_ge in Hfull. rewrite Hfull. reflexivity.
  - intros Hout. rewrite bool_decide_eq_false_2; [reflexivity |].
    intros Hin. apply Hout, hub_facts.members_dom, Hin.
Qed.

(** X2. The done case of the loop, taken once [Shutdown] has closed [done],
    over members whose queues are open: every member is closed, with what
    was pending kept, the membership becomes empty, the count 0, and [Run]
    returns. *)
Theorem Run_done_terminates_all h :
  Chan.closed (hub.done h) = true ->
  Chan.buf (hub.done h) = [] ->
  (forall c, c ∈ dom (hub.clients h) -> isOpen (hub.heap h c)) ->
  exists h',
    hub.Run_done h = Chan.Done h' /\
    hub.clients h' = ∅ /\ hub.ClientCount h' = 0 /\
    hub.running h' = false /\
    forall c,
      (c ∈ dom (hub.clients h) ->
         hub.heap h' c = terminated (hub.heap h c)) /\
      (c ∉ dom (hub.clients h) -> hub.heap h' c = hub.heap h c).
Proof.
  intros Hclosed Hempty Hopen.
  destruct (hub_facts.forEach_Done hub.Close terminated isOpen
              (hub.members h) (hub.heap h))
    as (objs & Hrun & Hobjs).
  { intros o. apply Close_open_terminated. }
  { apply hub_facts.members_NoDup. }
  { apply members_open, Hopen. }
  eexists. split.
  { unfold hub.Run_done, Chan.recv. rewrite Hempty, Hclosed.
    cbv [mbind Chan.result_bind].
    rewrite Hrun. reflexivity. }
  simpl. split; [reflexivity |].
  split; [unfold hub.ClientCount; simpl; apply map_size_empty |].
  split; [reflexivity |].
  intros c. rewrite Hobjs. split.
  - intros Hin.
    rewrite bool_decide_eq_true_2 by (apply hub_facts.members_dom, Hin).
    reflexivity.
  - intros Hout. rewrite bool_decide_eq_false_2; [reflexivity |].
    intros Hin. apply Hout, hub_facts.members_dom, Hin.
Qed.

(** X3. Unregistering a handle that is not a member, because it never was
    one or because it has been unregistered already, returns with the hub
    untouched; nothing is closed and nothing panics. *)
Theorem Unregister_not_member_is_noop h c :
  hub.running h = true ->
  hub.clients h !! c = None ->
  hub.Unregister (hub.AnyClient c) h = Chan.Done h /\
  hub.exec [hub.CallUnregister (hub.AnyClient c);
            hub.CallUnregister (hub.AnyClient c)] h = Chan.Done h.
Proof.
  intros Hrun Habsent.
  pose proof (hub_facts.Unregister_absent h c Hrun Habsent) as Hnoop.
  split; [exact Hnoop |]. simpl. rewrite Hnoop, Hnoop. reflexivity.
Qed.

(** Three connections register, one payload is broadcast, the loop takes
    it: each of the three has exactly that payload pending. *)
Example broadcast_hello_to_three :
  exists h,
    hub.exec [hub.CallRegister (hub.AnyClient 1);
              hub.CallRegister (hub.AnyClient 2);
              hub.CallRegister (hub.AnyClient 3);
              hub.CallBroadcast (fixtures.frame "hello");
              hub.LoopBroadcast] fixtures.hub0 = Chan.Done h /\
    hub.ClientCount h = 3 /\
    pending (hub.heap h 1) = [fixtures.frame "hello"] /\
    pending (hub.heap h 2) = [fixtures.frame "hello"] /\
    pending (hub.heap h 3) = [fixtures.frame "hello"] /\
    pending (hub.heap h 4) = [].
Proof.
  eexists. split; [vm_compute; reflexivity |].
  repeat split; vm_compute; reflexivity.
Qed.

(** [TestHub_Shutdown]: two connections register, the hub shuts down. *)
Example shutdown_closes_members :
  exists h,
    hub.exec [hub.CallRegister (hub.AnyClient 1);
              hub.CallRegister (hub.AnyClient 2);
              hub.CallShutdown; hub.LoopDone] fixtures.hub0 = Chan.Done h /\
    hub.ClientCount h = 0 /\
    hub.heap h 1 = fixtures.actualClosed /\
    hub.heap h 2 = fixtures.actualClosed.
Proof.
  eexists. split; [vm_compute; reflexivity |].
  repeat split; vm_compute; reflexivity.
Qed.

(** A closed connection registered again: the next broadcast panics in the
    loop. The hub relies on its callers never doing so. *)
Example reregistered_closed_handle_panics :
  hub.exec [hub.CallRegister (hub.AnyClient 1);
            hub.CallUnregister (hub.AnyClient 1);
            hub.CallRegister (hub.AnyClient 1);
            hub.CallBroadcast (fixtures.frame "hello");
            hub.LoopBroadcast] fixtures.hub0 = Chan.Panic.
Proof. vm_compute. reflexivity. Qed.

Lemma Run_broadcast_fanout_hello :
  exists h',
    hub.Run_broadcast
      (hub.mkHub {[ 1 := true ]} (Chan.mkChan [fixtures.frame "hello"] 256 false)
         (Chan.make 0) true (fun _ => fixtures.actual))
    = Chan.Done h' /\
    pending (hub.heap h' 1) = [fixtures.frame "hello"].
Proof.
  destruct (Run_broadcast_fanout
              (hub.mkHub {[ 1 := true ]}
                 (Chan.mkChan [fixtures.frame "hello"] 256 false)
                 (Chan.make 0) true (fun _ => fixtures.actual))
              (fixtures.frame "hello") [] eq_refl)
    as (h' & Hrun & _ & _ & Hheap).
  { intros c _. reflexivity. }
  exists h'. split; [exact Hrun |].
  destruct (Hheap 1) as (Hroom & _ & _). apply Hroom.
  - apply elem_of_dom. exists true. reflexivity.
  - simpl. unfold Chan.len, sendBufferSize. simpl. lia.
Defined.

Lemma Run_done_terminates_all_one_member :
  exists h',
    hub.Run_done
      (hub.mkHub {[ 1 := true ]} (Chan.make 256) (Chan.mkChan [] 0 true)
         true (fun _ => fixtures.actual))
    = Chan.Done h' /\
    hub.ClientCount h' = 0 /\
    hub.heap h' 1 = fixtures.actualClosed.
Proof.
  destruct (Run_done_terminates_all
              (hub.mkHub {[ 1 := true ]} (Chan.make 256)
                 (Chan.mkChan [] 0 true) true (fun _ => fixtures.actual))
              eq_refl eq_refl)
    as (h' & Hrun & _ & Hcount & _ & Hheap).
  { intros c _. reflexivity. }
  exists h'. split; [exact Hrun |]. split; [exact Hcount |].
  destruct (Hheap 1) as (Hmember & _). apply Hmember.
  apply elem_of_dom. exists true. reflexivity.
Defined.

Lemma Unregister_not_member_is_noop_handle_9 :
  hub.Unregister (hub.AnyClient 9) fixtures.hub0 = Chan.Done fixtures.hub0.
Proof.
  apply (Unregister_not_member_is_noop fixtures.hub0 9); reflexivity.
Defined.

End fanout_facts.

(* ===================================================================== *)
(** ** Properties of the outbound pump *)
(* ===================================================================== *)

Module outbound_facts.

Import client outbound.

Lemma texts_app (t1 t2 : list out) :
  texts (t1 ++ t2) = (texts t1 ++ texts t2)%list.
Proof.
  induction t1 as [|e t1 IH]; [reflexivity |].
  destruct e as [| | frame [|] | | | | |]; simpl; rewrite ?IH; reflexivity.
Qed.

Lemma queued_app (t1 t2 : list out) :
  queued (t1 ++ t2) = (queued t1 ++ queued t2)%list.
Proof.
  induction t1 as [|e t1 IH]; [reflexivity |].
  destruct e; simpl; rewrite ?IH; reflexivity.
Qed.

(** The loop of the queue case, run for as many payloads as are queued,
    takes them all, in order. *)
Lemma coalesce_all (b : list bytes) (cp : nat) (cl : bool) (w : bytes) :
  coalesce (length b) (Chan.mkChan b cp cl) w
  = Chan.Done (Chan.mkChan [] cp cl,
               (w ++ flat_map (fun p => newline :: p) b)%list).
Proof.
  revert w. induction b as [|v b IH]; intros w; simpl.
  - rewrite app_nil_r. reflexivity.
  - unfold Chan.recv; simpl. cbv [mbind Chan.result_bind].
    rewrite IH. simpl. rewrite <- !app_assoc. reflexivity.
Qed.

Lemma queue_turn_Done (c : Client) (first : bytes) (rest : list bytes)
  (flushOk : bool) :
  pending c = first :: rest ->
  writePump_turn (FromQueue true flushOk) c
  = Chan.Done ([SetWriteDeadline; WriteText (joinLines (first :: rest)) flushOk],
               withSend (Chan.mkChan [] (Chan.cap (send c))
                           (Chan.closed (send c))) c,
               negb flushOk).
Proof.
  unfold pending. intros Hbuf.
  unfold writePump_turn, Chan.recv. rewrite Hbuf.
  cbv [mbind Chan.result_bind negb Chan.len Chan.buf].
  rewrite coalesce_all. reflexivity.
Qed.

Lemma run_returned (turns : list turn) (c : Client) :
  run (Wake <$> turns) false c = Chan.Done ([], c, false).
Proof. induction turns as [|t turns IH]; [reflexivity | exact IH]. Qed.

(** X4. A queue turn of the outbound pump whose writes succeed sends
    everything that is pending as one text message, the payloads in the
    order they were queued with a newline between them, and leaves the
    queue empty, whether the queue has been closed or not. *)
Theorem writePump_turn_coalesces
  (c : Client) (first : bytes) (rest : list bytes) :
  pending c = first :: rest ->
  exists c',
    writePump_turn (FromQueue true true) c
    = Chan.Done ([SetWriteDeadline;
                  WriteText (joinLines (first :: rest)) true], c', false) /\
    pending c' = [] /\
    Chan.closed (send c') = Chan.closed (send c) /\
    Chan.cap (send c') = Chan.cap (send c) /\
    id c' = id c /\ username c' = username c /\ userID c' = userID c.
Proof.
  intros Hbuf. eexists. split.
  - apply (queue_turn_Done c first rest true Hbuf).
  - simpl. repeat split; reflexivity.
Qed.

Lemma Send_cases (c c1 : Client) (data : bytes) :
  Send c data = Chan.Done c1 ->
  (pending c1 = (pending c ++ [data])%list /\
   (length (pending c) <? length (pending c1))%nat = true) \/
  (c1 = c /\ (length (pending c) <? length (pending c1))%nat = false).
Proof.
  unfold Send, Chan.trySend, pending.
  destruct (Chan.closed (send c)); [discriminate |].
  destruct (Chan.len (send c) <? Chan.cap (send c))%nat; simpl;
    intros [= <-]; simpl.
  - left. split; [reflexivity |].
    apply Nat.ltb_lt. rewrite length_app. simpl. lia.
  - right. split; [reflexivity |]. apply Nat.ltb_irrefl.
Qed.

Lemma Close_pending (c c1 : Client) :
  Close c = Chan.Done c1 -> pending c1 = pending c.
Proof.
  unfold Close, Chan.close, pending.
  destruct (Chan.closed (send c)); [discriminate |].
  simpl. intros [= <-]. reflexivity.
Qed.

Lemma writesOk_tail (e : ev) (evs : list ev) :
  writesOk (e :: evs) -> writesOk evs.
Proof. intros Hok t Hin. apply Hok. right. exact Hin. Qed.

(** X5. Along any schedule of deliveries, termination and pump turns whose
    transport calls all succeed, the outbound side loses nothing,
    duplicates nothing and reorders nothing: the payloads that were pending
    at the start followed by those [Send] queued are, in that order, the
    payloads carried by the text messages written followed by those still
    pending at the end, each text message carrying a block of consecutive
    payloads joined by newlines. *)
Theorem outbound_keeps_order
  (evs : list ev) (live : bool) (c c' : Client) (tr : list out) (l : bool) :
  writesOk evs ->
  run evs live c = Chan.Done (tr, c', l) ->
  exists sent,
    (pending c ++ queued tr = sent ++ pending c')%list /\
    carries (texts tr) sent.
Proof.
  revert live c tr c' l.
  induction evs as [|e evs IH]; intros live c tr c' l Hok; simpl.
  - intros [= <- <- <-]. exists []. split; [apply app_nil_r | constructor].
  - pose proof (writesOk_tail e evs Hok) as Hok'.
    destruct e as [data | | t].
    + destruct (Send c data) as [c1| |] eqn:Hsend; try discriminate.
      cbv [mbind mret Chan.result_bind Chan.result_ret].
      destruct (run evs live c1) as [[[tr' c2] l2]| |] eqn:Hrun;
        try discriminate.
      intros [= <- <- <-].
      destruct (IH live c1 tr' c2 l2 Hok' Hrun) as (sent & Hsent & Hcarry).
      exists sent.
      destruct (Send_cases c c1 data Hsend) as [[Hq ->] | [-> ->]]; simpl.
      * split; [| exact Hcarry].
        rewrite <- Hsent, Hq, <- app_assoc. reflexivity.
      * split; [exact Hsent | exact Hcarry].
    + destruct (Close c) as [c1| |] eqn:Hclose; try discriminate.
      cbv [mbind mret Chan.result_bind Chan.result_ret]. intros Hrun.
      destruct (IH live c1 tr c' l Hok' Hrun) as (sent & Hsent & Hcarry).
      exists sent. rewrite <- (Close_pending c c1 Hclose). auto.
    + destruct live; [| apply IH; exact Hok'].
      assert (Ht : turnOk t = true) by (apply Hok; left).
      destruct t as [writerOk flushOk | pingOk]; simpl in Ht.
      * apply andb_true_iff in Ht as [-> ->].
        destruct (pending c) as [|first rest] eqn:Hbuf.
        -- unfold writePump_turn, Chan.recv. unfold pending in Hbuf.
           rewrite Hbuf. destruct (Chan.closed (send c)) eqn:Hcl.
           ++ cbv [mbind mret Chan.result_bind Chan.result_ret negb].
              destruct (run evs false (withSend (send c) c))
                as [[[tr' c2] l2]| |] eqn:Hrun; try discriminate.
              intros [= <- <- <-].
              destruct (IH false _ tr' c2 l2 Hok' Hrun)
                as (sent & Hsent & Hcarry).
              exists sent. unfold pending at 1, withSend in Hsent.
              simpl in Hsent. rewrite Hbuf in Hsent. simpl. auto.
           ++ cbv [mbind mret Chan.result_bind Chan.result_ret]. intros Hrun.
              destruct (IH true c tr c' l Hok' Hrun)
                as (sent & Hsent & Hcarry).
              exists sent. unfold pending in Hsent.
              rewrite Hbuf in Hsent. auto.
        -- rewrite (queue_turn_Done c first rest true Hbuf).
           cbv [mbind mret Chan.result_bind Chan.result_ret negb].
           match goal with
           | |- context [run evs true ?c1] =>
               destruct (run evs true c1) as [[[tr' c2] l2]| |] eqn:Hrun;
               try discriminate
           end.
           intros [= <- <- <-].
           destruct (IH true _ tr' c2 l2 Hok' Hrun)
             as (sent & Hsent & Hcarry).
           unfold pending at 1, withSend in Hsent. simpl in Hsent.
           exists (first :: rest ++ sent)%list. simpl. split.
           ++ rewrite Hsent, <- app_assoc. reflexivity.
           ++ apply (carries_block first rest). exact Hcarry.
      * subst pingOk. unfold writePump_turn.
        cbv [mbind mret Chan.result_bind Chan.result_ret negb].
        destruct (run evs true c) as [[[tr' c2] l2]| |] eqn:Hrun;
          try discriminate.
        intros [= <- <- <-].
        destruct (IH true c tr' c2 l2 Hok' Hrun) as (sent & Hsent & Hcarry).
        exists sent. simpl. auto.
Qed.

Lemma run_Wake (t : turn) (evs : list ev) (c : Client) :
  run (Wake t :: evs) true c
  = match writePump_turn t c with
    | Chan.Done (tr1, c1, returns) =>
        '(tr, c2, l) ← run evs (negb returns) c1;
        mret ((tr1 ++ (if returns then [TickerStop; ConnClose] else [])
               ++ tr)%list, c2, l)
    | Chan.Blocked => run evs true c
    | Chan.Panic => Chan.Panic
    end.
Proof. reflexivity. Qed.

Lemma run_Terminate (evs : list ev) (live : bool) (c : Client) :
  run (Terminate :: evs) live c = (c1 ← Close c; run evs live c1).
Proof. reflexivity. Qed.

Lemma closed_empty_turn (c : Client) (a b : bool) :
  pending c = [] -> Chan.closed (send c) = true ->
  writePump_turn (FromQueue a b) c
  = Chan.Done ([SetWriteDeadline; WriteCloseMessage], withSend (send c) c, true).
Proof.
  unfold pending. intros Hbuf Hclosed.
  unfold writePump_turn, Chan.recv. rewrite Hbuf, Hclosed. reflexivity.
Qed.

(** X6. After [Close], the outbound pump still writes what was queued
    before it sends the close message: a connection closed with payloads
    pending writes them all as one text message on its next queue turn,
    sends the close message on the following one, and returns, stopping the
    ticker and closing the transport; closed with nothing pending it sends
    the close message at once. Turns scheduled after that do nothing. *)
Theorem writePump_after_Close
  (c : Client) (a b : bool) (more : list turn) :
  isOpen c ->
  (pending c = [] ->
     run (Terminate :: (Wake <$> FromQueue a b :: more)) true c
     = Chan.Done ([SetWriteDeadline; WriteCloseMessage; TickerStop; ConnClose],
                  terminated c, false)) /\
  (forall first rest, pending c = first :: rest ->
     run (Terminate
          :: (Wake <$> FromQueue true true :: FromQueue a b :: more)) true c
     = Chan.Done ([SetWriteDeadline;
                   WriteText (joinLines (first :: rest)) true;
                   SetWriteDeadline; WriteCloseMessage;
                   TickerStop; ConnClose],
                  withSend (Chan.mkChan [] (Chan.cap (send c)) true) c,
                  false)).
Proof.
  intros Hopen.
  pose proof (terminate_facts.Close_open c Hopen) as Hclose.
  split.
  - intros Hbuf. rewrite run_Terminate, Hclose.
    cbv [mbind Chan.result_bind]. rewrite fmap_cons, run_Wake.
    rewrite (closed_empty_turn _ a b) by (simpl; auto).
    cbv [negb]. rewrite run_returned.
    cbv [mbind mret Chan.result_bind Chan.result_ret].
    unfold terminated, withSend. simpl. reflexivity.
  - intros first rest Hbuf. rewrite run_Terminate, Hclose.
    cbv [mbind Chan.result_bind]. rewrite !fmap_cons, run_Wake.
    rewrite (queue_turn_Done _ first rest true) by (simpl; exact Hbuf).
    cbv [negb]. rewrite run_Wake.
    rewrite (closed_empty_turn _ a b) by (simpl; auto).
    cbv [negb]. rewrite run_returned.
    cbv [mbind mret Chan.result_bind Chan.result_ret].
    unfold terminated, withSend. simpl. reflexivity.
Qed.

Lemma writePump_after_Close_two_queued :
  run [Terminate; Wake (FromQueue true true); Wake (FromQueue true true)]
    true samples.twoQueued
  = Chan.Done ([SetWriteDeadline;
                WriteText (joinLines [fixtures.frame "one";
                                      fixtures.frame "two"]) true;
                SetWriteDeadline; WriteCloseMessage; TickerStop; ConnClose],
               fixtures.actualClosed, false).
Proof.
  exact (proj2 (writePump_after_Close samples.twoQueued true true [] eq_refl)
           (fixtures.frame "one") [fixtures.frame "two"] eq_refl).
Defined.

(** X7. A failed transport call ends the outbound pump at once, and what
    it had taken from the queue is lost: when [NextWriter] fails, the
    payload just received is lost and the rest stays queued; when the
    writer's [Close] fails, the whole batch is lost; when a ping fails,
    nothing is. In each case the ticker is stopped, the transport closed,
    and no later turn writes anything. *)
Theorem writePump_write_error
  (c : Client) (first : bytes) (rest : list bytes) (b : bool)
  (more : list turn) :
  pending c = first :: rest ->
  writePump (FromQueue false b :: more) c
  = Chan.Done ([SetWriteDeadline; TickerStop; ConnClose],
               withSend (Chan.mkChan rest (Chan.cap (send c))
                           (Chan.closed (send c))) c, false) /\
  writePump (FromQueue true false :: more) c
  = Chan.Done ([SetWriteDeadline;
                WriteText (joinLines (first :: rest)) false;
                TickerStop; ConnClose],
               withSend (Chan.mkChan [] (Chan.cap (send c))
                           (Chan.closed (send c))) c, false) /\
  writePump (FromTicker false :: more) c
  = Chan.Done ([SetWriteDeadline; WritePing false; TickerStop; ConnClose],
               c, false).
Proof.
  intros Hbuf. unfold writePump. rewrite !fmap_cons, !run_Wake.
  split; [| split].
  - unfold writePump_turn, Chan.recv. unfold pending in Hbuf. rewrite Hbuf.
    cbv [mbind mret Chan.result_bind Chan.result_ret negb].
    rewrite run_returned. reflexivity.
  - rewrite (queue_turn_Done c first rest false Hbuf).
    cbv [mbind mret Chan.result_bind Chan.result_ret negb].
    rewrite run_returned. reflexivity.
  - unfold writePump_turn.
    cbv [mbind mret Chan.result_bind Chan.result_ret negb].
    rewrite run_returned. reflexivity.
Qed.

Lemma writePump_write_error_two_queued :
  writePump [FromQueue false true; FromQueue true true] samples.twoQueued
  = Chan.Done ([SetWriteDeadline; TickerStop; ConnClose],
               withSend (Chan.mkChan [fixtures.frame "two"] 256 false)
                 samples.twoQueued, false).
Proof.
  exact (proj1 (writePump_write_error samples.twoQueued
                  (fixtures.frame "one") [fixtures.frame "two"] true
                  [FromQueue true true] eq_refl)).
Defined.

Lemma writePump_turn_coalesces_two_queued :
  exists c',
    writePump_turn (FromQueue true true) samples.twoQueued
    = Chan.Done ([SetWriteDeadline;
                  WriteText (fixtures.frame "one" ++ [newline]
                             ++ fixtures.frame "two") true], c', false) /\
    pending c' = [].
Proof.
  destruct (writePump_turn_coalesces samples.twoQueued
              (fixtures.frame "one") [fixtures.frame "two"] eq_refl)
    as (c' & Hturn & Hempty & _).
  exists c'. split; [| exact Hempty].
  rewrite Hturn. vm_compute. reflexivity.
Defined.

Lemma busySchedule_writesOk : writesOk samples.busySchedule.
Proof.
  intros t Hin. unfold samples.busySchedule in Hin.
  repeat (apply elem_of_cons in Hin as [Heq | Hin];
          [try discriminate Heq; injection Heq as ->; reflexivity |]).
  inversion Hin.
Qed.

Lemma outbound_keeps_order_busy :
  exists tr c',
    run samples.busySchedule true fixtures.actual
    = Chan.Done (tr, c', false) /\
    texts tr = [joinLines [fixtures.frame "one"; fixtures.frame "two"];
                fixtures.frame "three"] /\
    exists sent,
      ([] ++ queued tr = sent ++ pending c')%list /\
      carries (texts tr) sent.
Proof.
  eexists. eexists.
  assert (Hrun : run samples.busySchedule true fixtures.actual
                 = Chan.Done
                     ([Queued (fixtures.frame "one");
                       Queued (fixtures.frame "two");
                       SetWriteDeadline;
                       WriteText (joinLines [fixtures.frame "one";
                                             fixtures.frame "two"]) true;
                       Queued (fixtures.frame "three");
                       SetWriteDeadline;
                       WriteText (fixtures.frame "three") true;
                       SetWriteDeadline; WriteCloseMessage;
                       TickerStop; ConnClose],
                      fixtures.actualClosed, false))
    by (vm_compute; reflexivity).
  split; [exact Hrun |]. split; [reflexivity |].
  exact (outbound_keeps_order samples.busySchedule true fixtures.actual _ _ _
           busySchedule_writesOk Hrun).
Defined.

End outbound_facts.

(* ===================================================================== *)
(** ** Membership over schedules *)
(* ===================================================================== *)

Module membership_facts.

Import hub membership.

Implicit Types (h : Hub (T := client.Client)) (c : handle).

Lemma step_tracks (e : event) h :
  running h = true -> e <> LoopDone ->
  match step e h with
  | Chan.Done h1 =>
      running h1 = true /\ dom (clients h1) = after (dom (clients h)) e
  | Chan.Blocked => after (dom (clients h)) e = dom (clients h)
  | Chan.Panic => True
  end.
Proof.
  intros Hrun Hup.
  destruct e as [v | v | m | | |]; simpl.
  - unfold Register. destruct v as [c | |]; simpl; auto.
    rewrite Hrun. unfold Run_register. simpl.
    split; [exact Hrun | apply dom_insert_L].
  - unfold Unregister. destruct v as [c | |]; simpl; auto.
    rewrite Hrun. unfold Run_unregister.
    destruct (clients h !! c) as [b|] eqn:Hc.
    + change (Close (heap h c)) with (client.Close (heap h c)).
      unfold client.Close, Chan.close.
      destruct (Chan.closed (client.send (heap h c))); simpl; auto.
      split; [exact Hrun | apply dom_delete_L].
    + simpl. split; [exact Hrun |].
      apply not_elem_of_dom in Hc. symmetry.
      apply difference_disjoint_L, disjoint_singleton_r, Hc.
  - unfold Broadcast. destruct (Chan.send (broadcast h) m); simpl; auto.
  - unfold Shutdown. destruct (Chan.close (done h)); simpl; auto.
  - rewrite Hrun. unfold Run_broadcast.
    destruct (Chan.recv (broadcast h)) as [[ch v]| |]; simpl; auto.
    destruct (forEach _ (members h) (heap h)); simpl; auto.
  - contradiction.
Qed.

(** X8. While the loop runs, the membership of the hub is the set that the
    registrations and unregistrations of the schedule describe, whatever
    broadcasts are interleaved with them and whether or not they find room:
    after any schedule that completes, the registered handles are those
    registered and not unregistered since, and [ClientCount] is their
    number. *)
Theorem ClientCount_tracks_membership (es : list event) h h' :
  running h = true ->
  staysUp es ->
  exec es h = Chan.Done h' ->
  dom (clients h') = afterAll es (dom (clients h)) /\
  ClientCount h' = size (afterAll es (dom (clients h))) /\
  running h' = true.
Proof.
  revert h. unfold afterAll, staysUp.
  induction es as [|e es IH]; intros h Hrun Hup; simpl.
  - intros [= <-]. repeat split; auto.
    unfold ClientCount. symmetry. apply size_dom.
  - assert (He : e <> LoopDone) by (intros ->; apply Hup; left).
    assert (Hes : LoopDone ∉ es) by (intros Hin; apply Hup; right; exact Hin).
    pose proof (step_tracks e h Hrun He) as Hstep.
    destruct (step e h) as [h1| |]; try discriminate.
    + destruct Hstep as [Hrun1 Hdom]. intros Hexec.
      rewrite <- Hdom. apply (IH h1 Hrun1 Hes Hexec).
    + intros Hexec. rewrite Hstep. apply (IH h Hrun Hes Hexec).
Qed.

Lemma churn_staysUp : staysUp samples.churn.
Proof.
  unfold staysUp, samples.churn. intros Hin.
  repeat (apply elem_of_cons in Hin as [Heq | Hin]; [discriminate Heq |]).
  inversion Hin.
Qed.

(** After the churn of the examples, handle 2 is the only member. *)
Lemma ClientCount_tracks_membership_churn :
  exists h',
    exec samples.churn fixtures.hub0 = Chan.Done h' /\
    dom (clients h') = {[2]} /\ ClientCount h' = 1.
Proof.
  destruct (exec samples.churn fixtures.hub0) as [h'| |] eqn:Hexec;
    [| vm_compute in Hexec; discriminate ..].
  exists h'. split; [reflexivity |].
  destruct (ClientCount_tracks_membership samples.churn fixtures.hub0 h'
              eq_refl churn_staysUp Hexec) as (Hdom & Hcount & _).
  split.
  - rewrite Hdom. vm_compute. reflexivity.
  - rewrite Hcount. vm_compute. reflexivity.
Defined.

End membership_facts.

(* ===================================================================== *)
(** ** Leaving the hub, and broadcasts in sequence *)
(* ===================================================================== *)

Module delivery_facts.

Import hub.

Implicit Types (h : Hub (T := client.Client)) (c : handle).

(** X9. While the loop runs, unregistering a member whose queue is open
    takes it out of the membership, lowers the count by one, closes its
    queue keeping what is pending, and touches no other connection.
    Unregistering a member whose queue has already been closed panics in
    the loop: the hub relies on a closed connection never being registered
    again. *)
Theorem Unregister_member h c (present : bool) :
  running h = true ->
  clients h !! c = Some present ->
  (client.isOpen (heap h c) ->
     exists h',
       Unregister (AnyClient c) h = Chan.Done h' /\
       clients h' = delete c (clients h) /\
       S (ClientCount h') = ClientCount h /\
       heap h' c = client.terminated (heap h c) /\
       (forall x, x <> c -> heap h' x = heap h x) /\
       broadcast h' = broadcast h /\ running h' = true) /\
  (Chan.closed (client.send (heap h c)) = true ->
     Unregister (AnyClient c) h = Chan.Panic).
Proof.
  intros Hrun Hc. unfold Unregister, Run_unregister; simpl.
  rewrite Hrun, Hc.
  change (Close (heap h c)) with (client.Close (heap h c)).
  split.
  - intros Hopen. rewrite (terminate_facts.Close_open _ Hopen).
    eexists. split; [reflexivity |]. simpl.
    split; [reflexivity |].
    split.
    { unfold ClientCount; simpl.
      rewrite map_size_delete_Some by (rewrite Hc; eauto).
      destruct (size (clients h)) eqn:Hsize; [| reflexivity].
      apply map_size_empty_iff in Hsize. rewrite Hsize in Hc.
      rewrite lookup_empty in Hc. discriminate. }
    split; [apply fn_lookup_insert |].
    split; [| auto].
    intros x Hx. apply fn_lookup_insert_ne. congruence.
  - intros Hclosed. rewrite (terminate_facts.Close_closed _ Hclosed).
    reflexivity.
Qed.

Lemma Unregister_member_handle_1 :
  exists h',
    Unregister (AnyClient 1) samples.oneMember = Chan.Done h' /\
    ClientCount h' = 0 /\
    client.pending (heap h' 1) = [fixtures.frame "one"; fixtures.frame "two"] /\
    Chan.closed (client.send (heap h' 1)) = true.
Proof.
  assert (Hc : clients samples.oneMember !! 1 = Some true) by reflexivity.
  destruct (proj1 (Unregister_member samples.oneMember 1 true eq_refl Hc)
              eq_refl)
    as (h' & Hun & Hclients & _ & Hheap & _).
  exists h'. split; [exact Hun |].
  split; [unfold ClientCount; rewrite Hclients; vm_compute; reflexivity |].
  rewrite Hheap. split; reflexivity.
Defined.

(** The broadcast case of the loop, with what it leaves in full. *)
Lemma Run_broadcast_step h (m : bytes) (rest : list bytes) :
  Chan.buf (broadcast h) = m :: rest ->
  (forall c, c ∈ dom (clients h) -> client.isOpen (heap h c)) ->
  exists h',
    Run_broadcast h = Chan.Done h' /\
    clients h' = clients h /\
    broadcast h' = Chan.mkChan rest (Chan.cap (broadcast h))
                     (Chan.closed (broadcast h)) /\
    done h' = done h /\ running h' = running h /\
    forall c, heap h' c =
              if bool_decide (c ∈ members h)
              then client.delivered m (heap h c) else heap h c.
Proof.
  intros Hbuf Hopen.
  destruct (hub_facts.forEach_Done (fun o => Send o m) (client.delivered m)
              client.isOpen (members h) (heap h))
    as (objs & Hrun & Hobjs).
  { intros o. apply fanout_facts.Send_open. }
  { apply hub_facts.members_NoDup. }
  { apply fanout_facts.members_open, Hopen. }
  eexists. split.
  { unfold Run_broadcast, Chan.recv. rewrite Hbuf.
    cbv [mbind Chan.result_bind default from_option Datatypes.id].
    rewrite Hrun. reflexivity. }
  simpl. auto 10.
Qed.

Lemma exec_app (es1 es2 : list event) h :
  exec (es1 ++ es2) h = (h1 ← exec es1 h; exec es2 h1).
Proof.
  revert h. induction es1 as [|e es1 IH]; intros h; simpl; [reflexivity |].
  destruct (step e h); simpl; auto.
Qed.

(** Payloads handed to [Broadcast] while the request buffer has room are
    buffered in order. *)
Lemma exec_Broadcast_all (ms : list bytes) h :
  Chan.closed (broadcast h) = false ->
  Chan.len (broadcast h) + length ms <= Chan.cap (broadcast h) ->
  exec (CallBroadcast <$> ms) h
  = Chan.Done (mkHub (clients h)
                 (Chan.mkChan (Chan.buf (broadcast h) ++ ms)
                    (Chan.cap (broadcast h)) false)
                 (done h) (running h) (heap h)).
Proof.
  revert h. induction ms as [|m ms IH]; intros h Hopen Hroom; simpl.
  - rewrite app_nil_r. destruct h as [cl [b cp clo] d r hp]; simpl in *.
    subst clo. reflexivity.
  - simpl in Hroom. unfold Broadcast, Chan.send. rewrite Hopen.
    assert (Hlt : (Chan.len (broadcast h) <? Chan.cap (broadcast h))%nat = true)
      by (apply Nat.ltb_lt; lia).
    rewrite Hlt. simpl. rewrite IH; simpl.
    + rewrite <- app_assoc. reflexivity.
    + exact Hopen.
    + unfold Chan.len in *; simpl. rewrite length_app; simpl. lia.
Qed.

(** The loop takes its broadcast case once per buffered request. *)
Lemma exec_LoopBroadcast_all (q : list bytes) h :
  running h = true ->
  Chan.buf (broadcast h) = q ->
  (forall c, c ∈ dom (clients h) ->
     client.isOpen (heap h c) /\
     length (client.pending (heap h c)) + length q
       <= Chan.cap (client.send (heap h c))) ->
  exists h',
    exec (replicate (length q) LoopBroadcast) h = Chan.Done h' /\
    clients h' = clients h /\ Chan.buf (broadcast h') = [] /\
    running h' = true /\
    forall c,
      (c ∈ dom (clients h) ->
         client.pending (heap h' c) = (client.pending (heap h c) ++ q)%list /\
         client.isOpen (heap h' c)) /\
      (c ∉ dom (clients h) -> heap h' c = heap h c).
Proof.
  revert h. induction q as [|m q IH]; intros h Hrun Hbuf Hroom.
  - exists h. simpl. split; [reflexivity |]. repeat split; auto.
    + rewrite app_nil_r. reflexivity.
    + apply Hroom. assumption.
  - destruct (Run_broadcast_step h m q Hbuf)
      as (h1 & Hstep & Hclients & Hbroadcast & _ & Hrun1 & Hheap).
    { intros c Hin. apply Hroom, Hin. }
    assert (Hmember : forall c, c ∈ dom (clients h) ->
              heap h1 c = client.mkClient
                            (Chan.enqueue (client.send (heap h c)) m)
                            (client.id (heap h c))
                            (client.username (heap h c))
                            (client.userID (heap h c))).
    { intros c Hin. rewrite Hheap.
      rewrite bool_decide_eq_true_2 by (apply hub_facts.members_dom, Hin).
      unfold client.delivered.
      destruct (Hroom c Hin) as [_ Hlen]. simpl in Hlen.
      assert (Hlt : (Chan.len (client.send (heap h c))
                     <? Chan.cap (client.send (heap h c)))%nat = true).
      { apply Nat.ltb_lt. unfold Chan.len, client.pending in *. lia. }
      rewrite Hlt. reflexivity. }
    destruct (IH h1) as (h' & Hexec & Hclients' & Hbuf' & Hrun' & Hheap').
    { congruence. }
    { rewrite Hbroadcast. reflexivity. }
    { intros c Hin. rewrite Hclients in Hin. rewrite (Hmember c Hin).
      destruct (Hroom c Hin) as [Hopen Hlen].
      unfold client.isOpen, client.pending in *; simpl in *.
      rewrite length_app; simpl. split; [exact Hopen | lia]. }
    exists h'. split.
    { simpl. rewrite Hrun, Hstep. exact Hexec. }
    split; [congruence |]. split; [exact Hbuf' |]. split; [exact Hrun' |].
    intros c. split.
    + intros Hin. destruct (Hheap' c) as [Hin' _].
      rewrite Hclients in Hin'. destruct (Hin' Hin) as [Hpending Hopen'].
      split; [| exact Hopen'].
      rewrite Hpending, (Hmember c Hin). unfold client.pending; simpl.
      rewrite <- app_assoc. reflexivity.
    + intros Hout. destruct (Hheap' c) as [_ Hout'].
      rewrite Hclients in Hout'. rewrite (Hout' Hout), Hheap.
      rewrite bool_decide_eq_false_2; [reflexivity |].
      intros Hin. apply Hout, hub_facts.members_dom, Hin.
Qed.

(** X10. Payloads broadcast one after the other reach every member in the
    order they were broadcast: when the request buffer is empty and has
    room for them, and every member's queue is open with room for them, the
    loop, once it has taken them all, has appended exactly these payloads,
    in that order, to the queue of every member, and has touched no other
    connection. *)
Theorem broadcasts_arrive_in_order h (ms : list bytes) :
  running h = true ->
  Chan.buf (broadcast h) = [] ->
  Chan.closed (broadcast h) = false ->
  length ms <= Chan.cap (broadcast h) ->
  (forall c, c ∈ dom (clients h) ->
     client.isOpen (heap h c) /\
     length (client.pending (heap h c)) + length ms
       <= Chan.cap (client.send (heap h c))) ->
  exists h',
    exec ((CallBroadcast <$> ms) ++ replicate (length ms) LoopBroadcast) h
    = Chan.Done h' /\
    clients h' = clients h /\ Chan.buf (broadcast h') = [] /\
    forall c,
      (c ∈ dom (clients h) ->
         client.pending (heap h' c) = (client.pending (heap h c) ++ ms)%list) /\
      (c ∉ dom (clients h) -> heap h' c = heap h c).
Proof.
  intros Hrun Hbuf Hopen Hcap Hroom.
  rewrite exec_app, exec_Broadcast_all;
    [| exact Hopen | unfold Chan.len; rewrite Hbuf; simpl; lia].
  rewrite Hbuf. simpl.
  destruct (exec_LoopBroadcast_all ms
              (mkHub (clients h) (Chan.mkChan ms (Chan.cap (broadcast h)) false)
                 (done h) (running h) (heap h)))
    as (h' & Hexec & Hclients & Hbuf' & _ & Hheap); simpl; auto.
  exists h'. split; [exact Hexec |]. split; [exact Hclients |].
  split; [exact Hbuf' |].
  intros c. destruct (Hheap c) as [Hin Hout]. simpl in *.
  split; [| exact Hout]. intros Hc. apply Hin, Hc.
Qed.

(** [TestHub_MultipleBroadcasts], with three members. *)
Lemma broadcasts_arrive_in_order_three :
  exists h',
    exec ((CallBroadcast <$> [fixtures.frame "msg1"; fixtures.frame "msg2";
                              fixtures.frame "msg3"])
          ++ replicate 3 LoopBroadcast) samples.threeMembers
    = Chan.Done h' /\
    client.pending (heap h' 2)
    = [fixtures.frame "msg1"; fixtures.frame "msg2"; fixtures.frame "msg3"] /\
    heap h' 4 = fixtures.actual.
Proof.
  destruct (broadcasts_arrive_in_order samples.threeMembers
              [fixtures.frame "msg1"; fixtures.frame "msg2";
               fixtures.frame "msg3"] eq_refl eq_refl eq_refl)
    as (h' & Hexec & _ & _ & Hheap).
  { simpl. lia. }
  { intros c _. split; [reflexivity |]. simpl. unfold client.sendBufferSize. lia. }
  exists h'. split; [exact Hexec |].
  destruct (Hheap 2) as [Hin _]. destruct (Hheap 4) as [_ Hout].
  split.
  - apply Hin. apply elem_of_dom. exists true. reflexivity.
  - apply Hout. intros Hin4. apply elem_of_dom in Hin4 as [b Hb].
    vm_compute in Hb. discriminate.
Defined.

End delivery_facts.

(* ===================================================================== *)
(** ** The inbound pump over a whole connection *)
(* ===================================================================== *)

Module inbound_facts.

Import message client inbound.

Lemma readPump_frame_quiet (json : Codec) (c : Client) (data : bytes) :
  (HubUnregister ∉ readPump_frame json c data) /\
  (ConnClose ∉ readPump_frame json c data).
Proof.
  unfold readPump_frame.
  destruct (FromJSON json data) as [parsed|].
  2: { split; intros Hin; apply list_elem_of_singleton in Hin; discriminate. }
  destruct (Validate (setIdentity c parsed)).
  { split; intros Hin; apply list_elem_of_singleton in Hin; discriminate. }
  destruct (ToJSON json (setIdentity c parsed));
    split; intros Hin; apply list_elem_of_singleton in Hin; discriminate.
Qed.

Lemma readPump_quiet (json : Codec) (c : Client) (reads : list read) :
  ended reads = false ->
  (HubUnregister ∉ readPump json c reads) /\
  (ConnClose ∉ readPump json c reads).
Proof.
  induction reads as [|r reads IH]; simpl.
  - intros _. split; apply not_elem_of_nil.
  - destruct r as [data | unexpected]; [| discriminate].
    intros Hend. destruct (IH Hend) as [Hu Hc].
    destruct (readPump_frame_quiet json c data) as [Hu' Hc'].
    split; intros Hin; apply elem_of_app in Hin as [Hin | Hin]; contradiction.
Qed.

Lemma readPump_until_error (json : Codec) (c : Client)
  (before after : list read) (unexpected : bool) :
  ended before = false ->
  readPump json c (before ++ ReadError unexpected :: after)
  = (readPump json c before
     ++ (if unexpected then [LogError "websocket read error"] else [])
     ++ [HubUnregister; ConnClose])%list.
Proof.
  induction before as [|r before IH]; simpl; [reflexivity |].
  destruct r as [data | u]; [| discriminate].
  intros Hend. rewrite (IH Hend), <- app_assoc. reflexivity.
Qed.

Implicit Types (h : hub.Hub (T := Client)) (me : hub.handle).

(** Only calls of the trace are carried out. *)
Lemma perform_returned (trace : list effect) me h (e : effect) :
  e ∈ (perform me trace h).1 -> e ∈ trace.
Proof.
  revert h. induction trace as [|e0 trace IH]; intros h; simpl.
  - intros Hin. inversion Hin.
  - destruct (perform1 me e0 h) as [h1 | |]; simpl;
      [| intros Hin; inversion Hin | intros Hin; inversion Hin].
    destruct (perform me trace h1) as [returned r] eqn:Hrest; simpl.
    intros Hin. apply elem_of_cons in Hin as [-> | Hin]; [left |].
    right. apply (IH h1). rewrite Hrest. exact Hin.
Qed.

(** When the calls of a first part all return, the pump goes on with the
    rest. *)
Lemma perform_app (t1 t2 : list effect) me h h1 :
  perform me t1 h = (t1, Chan.Done h1) ->
  perform me (t1 ++ t2) h
  = ((t1 ++ (perform me t2 h1).1)%list, (perform me t2 h1).2).
Proof.
  revert h. induction t1 as [|e t1 IH]; intros h; simpl.
  - intros [= <-]. destruct (perform me t2 h); reflexivity.
  - destruct (perform1 me e h) as [h2 | |]; [| discriminate | discriminate].
    destruct (perform me t1 h2) as [returned r] eqn:Hrest.
    intros [= -> ->]. rewrite (IH h2 Hrest). reflexivity.
Qed.

(** Broadcasts and log entries all return while the request buffer has
    room. *)
Lemma perform_frames (trace : list effect) me h :
  HubUnregister ∉ trace ->
  Chan.closed (hub.broadcast h) = false ->
  Chan.len (hub.broadcast h) + length (broadcasts trace)
    <= Chan.cap (hub.broadcast h) ->
  perform me trace h = (trace, Chan.Done (requested h (broadcasts trace))).
Proof.
  revert h. induction trace as [|e trace IH]; intros h Hq Hopen Hroom.
  - simpl. unfold requested. rewrite app_nil_r.
    destruct h as [cl [b cp clo] d r hp]; simpl in *. subst clo.
    reflexivity.
  - assert (Hq' : HubUnregister ∉ trace)
      by (intros Hin; apply Hq; right; exact Hin).
    destruct e as [payload | | | msg | msg].
    + simpl in Hroom. simpl. unfold hub.Broadcast, Chan.send.
      rewrite Hopen.
      destruct (Nat.ltb_spec (Chan.len (hub.broadcast h))
                  (Chan.cap (hub.broadcast h))) as [_ | Hfull]; [| lia].
      cbv [mbind mret Chan.result_bind Chan.result_ret].
      rewrite IH; simpl; auto.
      * unfold requested; simpl. rewrite <- app_assoc. reflexivity.
      * unfold Chan.len in *; simpl. rewrite length_app; simpl. lia.
    + exfalso. apply Hq. left.
    + simpl. simpl in Hroom. rewrite IH; auto.
    + simpl. simpl in Hroom. rewrite IH; auto.
    + simpl. simpl in Hroom. rewrite IH; auto.
Qed.

(** Once the loop has returned, the pump gets no further than its call of
    [Unregister]. *)
Lemma perform_loop_returned (trace tail : list effect) me h :
  hub.running h = false ->
  Chan.closed (hub.broadcast h) = false ->
  HubUnregister ∉ trace ->
  (perform me (trace ++ HubUnregister :: tail) h).2 = Chan.Blocked /\
  forall e, e ∈ (perform me (trace ++ HubUnregister :: tail) h).1 ->
            e ∈ trace.
Proof.
  revert h. induction trace as [|e trace IH]; intros h Hrun Hopen Hq.
  - simpl. unfold hub.Unregister; simpl. rewrite Hrun. simpl.
    split; [reflexivity | intros e Hin; inversion Hin].
  - assert (Hq' : HubUnregister ∉ trace)
      by (intros Hin; apply Hq; right; exact Hin).
    assert (Hstep : perform1 me e h = Chan.Blocked \/
                    exists h1, perform1 me e h = Chan.Done h1 /\
                               hub.running h1 = false /\
                               Chan.closed (hub.broadcast h1) = false).
    { destruct e as [payload | | | msg | msg]; simpl.
      - unfold hub.Broadcast, Chan.send. rewrite Hopen.
        destruct (Chan.len (hub.broadcast h) <? Chan.cap (hub.broadcast h))%nat;
          [right | left; reflexivity].
        eexists. split; [reflexivity |]. simpl. auto.
      - exfalso. apply Hq. left.
      - right. exists h. auto.
      - right. exists h. auto.
      - right. exists h. auto. }
    simpl. destruct Hstep as [-> | (h1 & -> & Hrun1 & Hopen1)].
    + simpl. split; [reflexivity | intros e' Hin; inversion Hin].
    + destruct (IH h1 Hrun1 Hopen1 Hq') as [Hblocked Hsub].
      destruct (perform me (trace ++ HubUnregister :: tail) h1)
        as [returned r]; simpl in *.
      split; [exact Hblocked |].
      intros e' Hin. apply elem_of_cons in Hin as [-> | Hin]; [left |].
      right. apply Hsub, Hin.
Qed.

(** X11. The inbound pump leaves only on a read error, and only when the
    hub lets it. While every read returns a frame, however malformed or
    invalid, it neither unregisters nor closes the transport. What the
    connection would have delivered after the first read error is never
    looked at. At that error, while the loop of the
    hub runs, the request buffer has room for what the pump broadcasts and
    the connection is not a member that has been closed already, every
    call of the pump returns: it unregisters the connection and then
    closes the transport, once each and as the last things it does. Once
    the loop has returned, which is what [Shutdown] brings about, the pump
    blocks, in [Unregister] at the latest, and never closes the
    transport. *)
Theorem readPump_leaves_on_read_error
  (json : Codec) me h (before after : list read) (unexpected : bool) :
  ended before = false ->
  (HubUnregister ∉ (run json me before h).1) /\
  (ConnClose ∉ (run json me before h).1) /\
  run json me (before ++ ReadError unexpected :: after) h
  = run json me (before ++ [ReadError unexpected]) h /\
  (hub.running h = true ->
   Chan.closed (hub.broadcast h) = false ->
   Chan.len (hub.broadcast h)
   + length (broadcasts (readPump json (hub.heap h me) before))
     <= Chan.cap (hub.broadcast h) ->
   (me ∈ dom (hub.clients h) -> isOpen (hub.heap h me)) ->
   exists h',
     run json me (before ++ ReadError unexpected :: after) h
     = ((readPump json (hub.heap h me) before
         ++ (if unexpected then [LogError "websocket read error"] else [])
         ++ [HubUnregister; ConnClose])%list,
        Chan.Done h') /\
     hub.clients h' = delete me (hub.clients h) /\
     Chan.buf (hub.broadcast h')
     = (Chan.buf (hub.broadcast h)
        ++ broadcasts (readPump json (hub.heap h me) before))%list) /\
  (hub.running h = false ->
   Chan.closed (hub.broadcast h) = false ->
   (run json me (before ++ ReadError unexpected :: after) h).2
   = Chan.Blocked /\
   (HubUnregister ∉ (run json me (before ++ ReadError unexpected :: after) h).1) /\
   (ConnClose ∉ (run json me (before ++ ReadError unexpected :: after) h).1)).
Proof.
  intros Hend. unfold run.
  set (c := hub.heap h me).
  destruct (readPump_quiet json c before Hend) as [Hu Hc].
  split; [intros Hin; apply Hu, (perform_returned _ _ _ _ Hin) |].
  split; [intros Hin; apply Hc, (perform_returned _ _ _ _ Hin) |].
  split.
  { rewrite !(readPump_until_error json c before _ unexpected Hend).
    reflexivity. }
  rewrite (readPump_until_error json c before after unexpected Hend).
  set (log := if unexpected then [LogError "websocket read error"] else []).
  split.
  - intros Hrun Hopen Hroom Hmember.
    assert (Hlog : broadcasts (readPump json c before ++ log)
                   = broadcasts (readPump json c before)).
    { rewrite pump_facts.broadcasts_app. unfold log.
      destruct unexpected; simpl; apply app_nil_r. }
    assert (Hquiet : HubUnregister ∉ (readPump json c before ++ log)%list).
    { intros Hin. apply elem_of_app in Hin as [Hin | Hin]; [contradiction |].
      unfold log in Hin. destruct unexpected;
        [apply list_elem_of_singleton in Hin; discriminate | inversion Hin]. }
    rewrite app_assoc.
    rewrite (perform_app _ [HubUnregister; ConnClose] me h _
               (perform_frames _ me h Hquiet Hopen
                  ltac:(rewrite Hlog; exact Hroom))).
    rewrite Hlog. simpl.
    unfold hub.Unregister, hub.Run_unregister; simpl. rewrite Hrun.
    destruct (hub.clients h !! me) as [present|] eqn:Hme.
    + assert (Hisopen : isOpen (hub.heap h me)).
      { apply Hmember, elem_of_dom. exists present. exact Hme. }
      change (hub.Close (hub.heap h me)) with (Close (hub.heap h me)).
      rewrite (terminate_facts.Close_open _ Hisopen). simpl.
      eexists. split; [reflexivity |]. simpl. split; reflexivity.
    + simpl. eexists. split; [reflexivity |]. simpl.
      split; [| reflexivity]. symmetry. apply delete_id. exact Hme.
  - intros Hrun Hopen.
    assert (Hquiet : HubUnregister ∉ (readPump json c before ++ log)%list).
    { intros Hin. apply elem_of_app in Hin as [Hin | Hin]; [contradiction |].
      unfold log in Hin. destruct unexpected;
        [apply list_elem_of_singleton in Hin; discriminate | inversion Hin]. }
    rewrite app_assoc.
    destruct (perform_loop_returned (readPump json c before ++ log)
                [ConnClose] me h Hrun Hopen Hquiet) as [Hblocked Hsub].
    split; [exact Hblocked |]. split.
    + intros Hin. apply Hquiet, Hsub, Hin.
    + intros Hin. apply Hsub in Hin.
      apply elem_of_app in Hin as [Hin | Hin]; [contradiction |].
      unfold log in Hin. destruct unexpected;
        [apply list_elem_of_singleton in Hin; discriminate | inversion Hin].
Qed.

(** A malformed frame and then a read error: while the loop runs, the pump
    of the only member unregisters it and closes the transport; after
    [Shutdown] it blocks. *)
Lemma readPump_leaves_on_read_error_after_garbage :
  (run fixtures.sampleJSON 1
     [Frame (fixtures.frame "invalid json"); ReadError true;
      Frame (fixtures.frame "never read")] fixtures.hubDown).2
  = Chan.Blocked /\
  exists h',
    run fixtures.sampleJSON 1
      [Frame (fixtures.frame "invalid json"); ReadError true;
       Frame (fixtures.frame "never read")] samples.oneMember
    = ([LogWarn "invalid message format"; LogError "websocket read error";
        HubUnregister; ConnClose], Chan.Done h') /\
    hub.clients h' = delete 1 (hub.clients samples.oneMember).
Proof.
  split.
  - destruct (readPump_leaves_on_read_error fixtures.sampleJSON 1
                fixtures.hubDown [Frame (fixtures.frame "invalid json")]
                [Frame (fixtures.frame "never read")] true eq_refl)
      as (_ & _ & _ & _ & Hdown).
    exact (proj1 (Hdown eq_refl eq_refl)).
  - destruct (readPump_leaves_on_read_error fixtures.sampleJSON 1
                samples.oneMember [Frame (fixtures.frame "invalid json")]
                [Frame (fixtures.frame "never read")] true eq_refl)
      as (_ & _ & _ & Hup & _).
    destruct (Hup eq_refl eq_refl) as (h' & Hrun & Hclients & _).
    + vm_compute. lia.
    + intros _. reflexivity.
    + exists h'. split; [exact Hrun | exact Hclients].
Defined.

(** X12. The inbound pump answers the frames it reads one by one and in
    order: the payloads it hands to [Broadcast] are, in the order of the
    frames read before the first read error, the serializations of those
    frames that parse and validate under the connection's identity, one
    payload for each such frame and none for any other. *)
Theorem readPump_broadcasts_in_frame_order
  (json : Codec) (c : Client) (reads : list read) :
  broadcasts (readPump json c reads)
  = omap (accepted json c) (framesRead reads).
Proof.
  induction reads as [|r reads IH]; [reflexivity |].
  destruct r as [data | unexpected]; simpl.
  - rewrite pump_facts.broadcasts_app, IH.
    unfold readPump_frame, accepted.
    destruct (FromJSON json data) as [parsed|]; simpl; [| reflexivity].
    destruct (Validate (setIdentity c parsed)); simpl; [reflexivity |].
    destruct (ToJSON json (setIdentity c parsed)); reflexivity.
  - rewrite pump_facts.broadcasts_app.
    destruct unexpected; reflexivity.
Qed.

End inbound_facts.

(* ===================================================================== *)
(** ** Properties of the handler, the constructors and the configuration *)
(* ===================================================================== *)

Module server_facts.

Import message client.

Lemma New_identity (newID user name : string) :
  userID (New newID user name) = user /\ username (New newID user name) = name.
Proof. split; reflexivity. Qed.

(** X13. [handleWebSocket] makes no connection when the upgrade fails,
    and one connection when it succeeds, which never has an empty
    identity: a missing or empty [userId] becomes "anonymous" and a missing
    or empty [username] becomes "Anonymous", any other first value is taken
    as it is. So its inbound pump never rejects a frame for an empty
    username; but when the [username] of the query is longer than 50 bytes,
    it rejects every frame, and the connection never broadcasts
    anything. *)
Theorem handleWebSocket_identity
  (query : server.Values) (newID : string) :
  server.handleWebSocket query false newID = None /\
  exists c,
    server.handleWebSocket query true newID = Some c /\
    id c = newID /\ pending c = [] /\ isOpen c /\
    userID c <> "" /\ username c <> "" /\
    (server.Values_Get query "userId" = "" -> userID c = "anonymous") /\
    (server.Values_Get query "userId" <> "" ->
       userID c = server.Values_Get query "userId") /\
    (server.Values_Get query "username" = "" -> username c = "Anonymous") /\
    (server.Values_Get query "username" <> "" ->
       username c = server.Values_Get query "username") /\
    (forall parsed,
       Validate (setIdentity c parsed) <> Some ErrEmptyUsername) /\
    ((50 < String.length (server.Values_Get query "username"))%nat ->
       forall json reads, broadcasts (readPump json c reads) = []).
Proof.
  split; [reflexivity |].
  unfold server.handleWebSocket.
  set (u := server.Values_Get query "userId").
  set (n := server.Values_Get query "username").
  eexists. split; [reflexivity |].
  split; [reflexivity |]. split; [reflexivity |]. split; [reflexivity |].
  simpl.
  assert (Hu : (if u =? "" then "anonymous" else u) <> "").
  { destruct (String.eqb_spec u ""); [discriminate | assumption]. }
  assert (Hn : (if n =? "" then "Anonymous" else n) <> "").
  { destruct (String.eqb_spec n ""); [discriminate | assumption]. }
  split; [exact Hu |]. split; [exact Hn |].
  split; [intros ->; reflexivity |].
  split; [intros Hne; destruct (String.eqb_spec u ""); [contradiction | reflexivity] |].
  split; [intros ->; reflexivity |].
  split; [intros Hne; destruct (String.eqb_spec n ""); [contradiction | reflexivity] |].
  split.
  - intros parsed. unfold Validate; simpl.
    destruct (negb (Type_ parsed =? TypeChat) && negb (Type_ parsed =? TypeSystem)
              && negb (Type_ parsed =? TypeJoin)
              && negb (Type_ parsed =? TypeLeave)); [discriminate |].
    destruct (String.eqb_spec (if n =? "" then "Anonymous" else n) "");
      [contradiction |].
    repeat match goal with
           | |- context [if ?b then _ else _] => destruct b
           end; discriminate.
  - intros Hlong json reads.
    assert (Hname : (if n =? "" then "Anonymous" else n) = n).
    { destruct (String.eqb_spec n "") as [Hn0 |]; [| reflexivity].
      rewrite Hn0 in Hlong. simpl in Hlong. lia. }
    destruct (broadcasts (readPump json _ reads)) as [|payload rest] eqn:Hb;
      [reflexivity | exfalso].
    assert (Hin : payload ∈ broadcasts
                    (readPump json
                       (New newID (if u =? "" then "anonymous" else u)
                          (if n =? "" then "Anonymous" else n)) reads))
      by (rewrite Hb; left).
    destruct (pump_facts.readPump_inv _ _ _ _ Hin) as (data & _ & Hp).
    destruct (pump_facts.readPump_frame_inv _ _ _ _ Hp)
      as (parsed & _ & Hvalid & _).
    revert Hvalid. unfold Validate; simpl. rewrite Hname.
    destruct (negb (Type_ parsed =? TypeChat) && negb (Type_ parsed =? TypeSystem)
              && negb (Type_ parsed =? TypeJoin)
              && negb (Type_ parsed =? TypeLeave)); [discriminate |].
    destruct (String.eqb_spec n ""); [discriminate |].
    unfold MaxUsernameLength.
    destruct (Nat.ltb_spec 50 (String.length n)); [discriminate | lia].
Qed.

Lemma handleWebSocket_identity_alice :
  server.handleWebSocket samples.aliceQuery false "client-1" = None /\
  exists c,
    server.handleWebSocket samples.aliceQuery true "client-1" = Some c /\
    userID c = "alice" /\ username c = "Anonymous".
Proof.
  destruct (handleWebSocket_identity samples.aliceQuery "client-1")
    as (Hfailed & c & Hc & _ & _ & _ & _ & _ & _ & Huser & Hname & _).
  split; [exact Hfailed |].
  exists c. split; [exact Hc |]. split.
  - rewrite Huser; [vm_compute; reflexivity | vm_compute; discriminate].
  - apply Hname. vm_compute. reflexivity.
Defined.

(** X14. The two constructors and validation: a system message made by
    [NewSystemMessage] passes [Validate] whatever its content, empty or
    longer than 1000 bytes included; a chat message made by
    [NewChatMessage] passes exactly when its username is not empty and at
    most 50 bytes long and its content is not empty and at most 1000 bytes
    long. Both carry the instant of the clock, presented in UTC. *)
Theorem constructors_and_Validate
  (now : Time) (user name content : string) :
  Validate (NewSystemMessage now content) = None /\
  (Validate (NewChatMessage now user name content) = None <->
     name <> "" /\ (String.length name <= 50)%nat /\
     content <> "" /\ (String.length content <= 1000)%nat) /\
  Timestamp (NewSystemMessage now content) = mkTime (instant now) UTC /\
  Timestamp (NewChatMessage now user name content) = mkTime (instant now) UTC.
Proof.
  split; [reflexivity |]. split; [| split; reflexivity].
  unfold Validate, NewChatMessage, MaxUsernameLength, MaxContentLength; simpl.
  destruct (String.eqb_spec name ""), (String.eqb_spec content "");
    destruct (Nat.ltb_spec 50 (String.length name));
    destruct (Nat.ltb_spec 1000 (String.length content));
    split; try discriminate; try (intros (? & ? & ? & ?); try contradiction; lia);
    intros _; repeat split; auto; lia.
Qed.

(** X15. Whatever the environment, no field of the configuration that
    [Load] returns is empty, since every default is non-empty and an empty
    variable counts as unset. Hence the repository set up from it always
    uses static credentials and an explicit base endpoint: the branch that
    relies on the default AWS credentials chain is never taken. *)
Theorem Load_never_empty (env : config.environ) :
  config.Port (config.Load env) <> "" /\
  config.DynamoDBEndpoint (config.Load env) <> "" /\
  config.DynamoDBRegion (config.Load env) <> "" /\
  config.AWSAccessKey (config.Load env) <> "" /\
  config.AWSSecretKey (config.Load env) <> "" /\
  config.LogLevel (config.Load env) <> "" /\
  storage.clientOptions (config.Load env)
  = storage.mkClientOptions
      (config.DynamoDBRegion (config.Load env))
      (storage.StaticCredentials (config.AWSAccessKey (config.Load env))
         (config.AWSSecretKey (config.Load env)) "")
      (Some (config.DynamoDBEndpoint (config.Load env))).
Proof.
  assert (Hne : forall key d, d <> "" -> config.getEnv env key d <> "").
  { intros key d Hd. unfold config.getEnv.
    destruct (String.eqb_spec (config.Getenv env key) ""); simpl; assumption. }
  assert (Hend : config.DynamoDBEndpoint (config.Load env) <> "")
    by (apply Hne; discriminate).
  repeat (split; [try exact Hend; apply Hne; discriminate |]).
  unfold storage.clientOptions.
  destruct (String.eqb_spec (config.DynamoDBEndpoint (config.Load env)) "");
    [contradiction | reflexivity].
Qed.

End server_facts.

(* ===================================================================== *)
(** ** Properties of [storage] *)
(* ===================================================================== *)

Module storage_facts.

Import message storage.

Lemma insert_middle {A : Type} (l1 l2 : list A) (x y : A) :
  <[length l1 := y]> (l1 ++ x :: l2)%list = (l1 ++ y :: l2)%list.
Proof. induction l1 as [|a l1 IH]; simpl; [reflexivity | rewrite IH; reflexivity]. Qed.

Lemma swap_ends {A : Type} (before mid behind : list A) (x y : A) :
  (before ++ x :: mid ++ y :: behind)%list !! length before = Some x /\
  (before ++ x :: mid ++ y :: behind)%list !! (length before + S (length mid))%nat
  = Some y /\
  <[length before := y]>
    (<[(length before + S (length mid))%nat := x]>
       (before ++ x :: mid ++ y :: behind)%list)
  = (before ++ y :: mid ++ x :: behind)%list.
Proof.
  induction before as [|a before IH]; simpl.
  - split; [reflexivity |].
    split; [apply list_lookup_middle; reflexivity |].
    rewrite insert_middle. reflexivity.
  - destruct IH as (H1 & H2 & H3).
    split; [exact H1 |]. split; [exact H2 |]. rewrite H3. reflexivity.
Qed.

(** The swapping loop, started on the two ends of a segment of the list,
    reverses that segment and leaves the rest alone. *)
Lemma reverseLoop_segment (fuel : nat) :
  forall (mid before behind : list Message),
    length mid <= fuel ->
    reverseLoop fuel (Z.of_nat (length before))
      (Z.of_nat (length before + length mid) - 1)
      (before ++ mid ++ behind)%list
    = Some (before ++ reverse mid ++ behind)%list.
Proof.
  induction fuel as [|fuel IH]; intros mid before behind Hfuel.
  - destruct mid; [| simpl in Hfuel; lia]. simpl.
    destruct (Z.ltb_spec (Z.of_nat (length before))
                (Z.of_nat (length before + 0) - 1)); [lia | reflexivity].
  - destruct mid as [|x mid].
    { simpl. destruct (Z.ltb_spec (Z.of_nat (length before))
                         (Z.of_nat (length before + 0) - 1));
        [lia | reflexivity]. }
    destruct mid as [|y mid _] using rev_ind.
    { simpl. destruct (Z.ltb_spec (Z.of_nat (length before))
                         (Z.of_nat (length before + 1) - 1));
        [lia | reflexivity]. }
    simpl in Hfuel. rewrite length_app in Hfuel. simpl in Hfuel.
    assert (Hshape : (before ++ (x :: mid ++ [y]) ++ behind)%list
                     = (before ++ x :: mid ++ y :: behind)%list).
    { simpl. rewrite <- app_assoc. reflexivity. }
    assert (Hj : (Z.of_nat (length before + length (x :: mid ++ [y])) - 1)%Z
                 = Z.of_nat (length before + S (length mid))).
    { simpl. rewrite length_app. simpl. lia. }
    rewrite Hshape, Hj. cbn [reverseLoop].
    destruct (Z.ltb_spec (Z.of_nat (length before))
                (Z.of_nat (length before + S (length mid)))) as [_ | Hge];
      [| lia].
    rewrite !Nat2Z.id.
    destruct (swap_ends before mid behind x y) as (H1 & H2 & H3).
    rewrite H1, H2, H3.
    assert (Hi : (Z.of_nat (length before) + 1)%Z
                 = Z.of_nat (length (before ++ [y]))).
    { rewrite length_app. simpl. lia. }
    assert (Hj' : (Z.of_nat (length before + S (length mid)) - 1)%Z
                  = (Z.of_nat (length (before ++ [y]) + length mid) - 1)%Z).
    { rewrite length_app. simpl. lia. }
    assert (Hnext : (before ++ y :: mid ++ x :: behind)%list
                    = ((before ++ [y]) ++ mid ++ x :: behind)%list).
    { rewrite <- app_assoc. reflexivity. }
    rewrite Hi, Hj', Hnext, IH by lia.
    rewrite reverse_cons, reverse_snoc. simpl.
    rewrite <- !app_assoc. reflexivity.
Qed.

Lemma reverseInPlace_reverse (messages : list Message) :
  reverseInPlace messages = Some (reverse messages).
Proof.
  unfold reverseInPlace.
  pose proof (reverseLoop_segment (length messages) messages [] []) as H.
  simpl in H. rewrite !app_nil_r in H. apply H. lia.
Qed.

Section Repository.

Variable Item : Type.
Variable MarshalMap : Message -> option Item.
Variable UnmarshalMap : Item -> option Message.
Variable PutItem : string -> Item -> bool.
Variable Query : QueryInput -> option (list Item).

Lemma unmarshalAll_omap (items : list Item) :
  unmarshalAll Item UnmarshalMap items = omap UnmarshalMap items.
Proof.
  induction items as [|item items IH]; [reflexivity |]. simpl.
  destruct (UnmarshalMap item); rewrite IH; reflexivity.
Qed.

(** X16. [GetRecentMessages] asks for the newest messages first
    ([ScanIndexForward] is false), never fails on its own account and
    returns the messages in the reverse of the order in which the query
    answered: its swapping loop never steps out of the list and is a
    reversal. [GetMessagesByUser] asks for the oldest first and returns the
    messages in the order of the answer. Items that do not unmarshal are
    left out, not reported, and a failed query is the only error of
    either. So, when the service answers in the order it is asked for,
    both return the messages oldest first. *)
Theorem GetRecentMessages_oldest_first
  (roomID userID : string) (limit : Z) :
  ScanIndexForward (recentQuery roomID limit) = false /\
  ScanIndexForward (userQuery userID limit) = true /\
  (Query (recentQuery roomID limit) = None ->
     GetRecentMessages Item UnmarshalMap Query roomID limit = inr ErrQuery) /\
  (forall items, Query (recentQuery roomID limit) = Some items ->
     GetRecentMessages Item UnmarshalMap Query roomID limit
     = inl (Some (reverse (omap UnmarshalMap items)))) /\
  (Query (userQuery userID limit) = None ->
     GetMessagesByUser Item UnmarshalMap Query userID limit = inr ErrQuery) /\
  (forall items, Query (userQuery userID limit) = Some items ->
     GetMessagesByUser Item UnmarshalMap Query userID limit
     = inl (omap UnmarshalMap items)) /\
  (honoursOrder UnmarshalMap Query ->
     (forall result,
        GetRecentMessages Item UnmarshalMap Query roomID limit = inl result ->
        exists messages, result = Some messages /\ Sorted notAfter messages) /\
     (forall messages,
        GetMessagesByUser Item UnmarshalMap Query userID limit = inl messages ->
        Sorted notAfter messages)).
Proof.
  unfold GetRecentMessages, GetMessagesByUser.
  split; [reflexivity |]. split; [reflexivity |].
  split; [intros ->; reflexivity |].
  split; [| split; [intros ->; reflexivity |]]; [| split].
  - intros items ->. rewrite unmarshalAll_omap, reverseInPlace_reverse.
    reflexivity.
  - intros items ->. rewrite unmarshalAll_omap. reflexivity.
  - intros Horder. split.
    + destruct (Query (recentQuery roomID limit)) as [items|] eqn:Hq;
        [| discriminate].
      intros result [= <-].
      rewrite unmarshalAll_omap, reverseInPlace_reverse.
      eexists. split; [reflexivity |].
      apply Sorted_reverse. exact (Horder _ _ Hq).
    + destruct (Query (userQuery userID limit)) as [items|] eqn:Hq;
        [| discriminate].
      intros messages [= <-]. rewrite unmarshalAll_omap.
      exact (Horder _ _ Hq).
Qed.

(** X17. [SaveMessage] gives the message it is handed the two parts of its
    primary key when they are missing, and only then: an empty [MessageID]
    becomes the new identifier, an empty [RoomID] becomes "global", and
    nothing else changes, also when the save then fails. With a non-empty
    new identifier the key is never empty. A message that went through
    [SaveMessage] keeps its key when it is saved again, so saving it twice
    writes the same item twice, not two items; and a message saved without
    a room is filed under the room that [GetRecentMessages] reads when it
    is asked for no room. *)
Theorem SaveMessage_key (newUUID : string) (msg : Message) :
  newUUID <> "" ->
  let saved := fst (SaveMessage Item MarshalMap PutItem newUUID msg) in
  MessageID saved <> "" /\ RoomID saved <> "" /\
  MessageID saved = (if MessageID msg =? "" then newUUID else MessageID msg) /\
  RoomID saved = (if RoomID msg =? "" then DefaultRoomID else RoomID msg) /\
  Type_ saved = Type_ msg /\ UserID saved = UserID msg /\
  Username saved = Username msg /\ Content saved = Content msg /\
  Timestamp saved = Timestamp msg /\
  (forall otherUUID,
     fst (SaveMessage Item MarshalMap PutItem otherUUID saved) = saved) /\
  (RoomID msg = "" ->
     forall limit, queryValue (recentQuery "" limit) = RoomID saved) /\
  (snd (SaveMessage Item MarshalMap PutItem newUUID msg) = None ->
     exists item, MarshalMap saved = Some item /\
                  PutItem TableName item = true).
Proof.
  intros Huuid.
  assert (Hfst : forall u m,
            fst (SaveMessage Item MarshalMap PutItem u m) = withDefaults u m).
  { intros u m. unfold SaveMessage.
    destruct (MarshalMap (withDefaults u m)) as [item|]; [| reflexivity].
    destruct (PutItem TableName item); reflexivity. }
  cbv zeta. rewrite Hfst.
  assert (Hid : MessageID (withDefaults newUUID msg) <> "" /\
                RoomID (withDefaults newUUID msg) <> "").
  { unfold withDefaults.
    destruct (String.eqb_spec (MessageID msg) ""); simpl;
      destruct (String.eqb_spec (RoomID msg) ""); simpl;
      split; try assumption; discriminate. }
  destruct Hid as [Hid Hroom].
  split; [exact Hid |]. split; [exact Hroom |].
  split; [unfold withDefaults; destruct (MessageID msg =? ""); simpl;
          destruct (RoomID msg =? ""); reflexivity |].
  split; [unfold withDefaults; destruct (MessageID msg =? ""); simpl;
          destruct (RoomID msg =? ""); reflexivity |].
  do 5 (split; [unfold withDefaults; destruct (MessageID msg =? ""); simpl;
                destruct (RoomID msg =? ""); reflexivity |]).
  split; [| split].
  - intros otherUUID. rewrite Hfst.
    unfold withDefaults at 1.
    destruct (String.eqb_spec (MessageID (withDefaults newUUID msg)) "");
      [contradiction |].
    destruct (String.eqb_spec (RoomID (withDefaults newUUID msg)) "");
      [contradiction | reflexivity].
  - intros Hnoroom limit. unfold withDefaults.
    destruct (MessageID msg =? ""); simpl; rewrite Hnoroom; reflexivity.
  - unfold SaveMessage.
    destruct (MarshalMap (withDefaults newUUID msg)) as [item|];
      [| discriminate].
    destruct (PutItem TableName item) eqn:Hput; [| discriminate].
    intros _. exists item. auto.
Qed.

End Repository.

(** The sample service answers in the order it is asked for. *)
Lemma orderedQuery_honoursOrder : honoursOrder id samples.orderedQuery.
Proof.
  intros q items. unfold samples.orderedQuery.
  destruct (queryValue q =? "global"); [| discriminate].
  destruct (ScanIndexForward q); intros [= <-]; vm_compute;
    repeat constructor; discriminate.
Qed.

(** The sample table: the three stored messages come back oldest first,
    and the item that does not unmarshal is left out. *)
Lemma GetRecentMessages_oldest_first_sample :
  exists messages,
    GetRecentMessages (option Message) id samples.orderedQuery "" 50
    = inl (Some messages) /\
    Content <$> messages = ["first"; "second"; "third"] /\
    Sorted notAfter messages.
Proof.
  destruct (GetRecentMessages_oldest_first (option Message) id
              samples.orderedQuery "" "u" 50)
    as (_ & _ & _ & Hrecent & _ & _ & Hsorted).
  destruct (proj1 (Hsorted orderedQuery_honoursOrder) _
              (Hrecent samples.storedItems eq_refl))
    as (messages & [= <-] & Hs).
  eexists. split; [exact (Hrecent samples.storedItems eq_refl) |].
  split; [reflexivity | exact Hs].
Defined.

Lemma SaveMessage_key_first_save :
  "0b8f-uuid" <> "" /\
  MessageID (fst (SaveMessage (option Message) samples.sampleMarshal
                    samples.samplePut "0b8f-uuid" samples.unsaved))
  = "0b8f-uuid" /\
  RoomID (fst (SaveMessage (option Message) samples.sampleMarshal
                 samples.samplePut "0b8f-uuid" samples.unsaved))
  = "global".
Proof.
  assert (Huuid : "0b8f-uuid" <> "") by discriminate.
  split; [exact Huuid |].
  destruct (SaveMessage_key (option Message) samples.sampleMarshal
              samples.samplePut "0b8f-uuid" samples.unsaved Huuid)
    as (_ & _ & Hid & Hroom & _).
  split; [exact Hid | exact Hroom].
Defined.

(** The sample table: three stored messages come back oldest first, the
    item that does not unmarshal is left out, and another room is a failed
    query. *)
Example GetRecentMessages_sample :
  GetRecentMessages (option Message) id samples.sampleQuery "" 50
  = inl (Some
      [fixtures.chatMessage "u" "U" "first" (mkTime 10 UTC);
       fixtures.chatMessage "u" "U" "second" (mkTime 20 UTC);
       fixtures.chatMessage "u" "U" "third" (mkTime 30 UTC)]) /\
  GetRecentMessages (option Message) id samples.sampleQuery "lobby" 50
  = inr ErrQuery.
Proof. split; vm_compute; reflexivity. Qed.

(** X18. The limit of a query is converted to 32 bits without a check: a
    limit between 0 and 2147483647 is sent as it is, limits that differ by
    a multiple of 4294967296 send the same request, and the value sent
    always fits 32 bits; so a limit of 4294967297 asks for one message. *)
Theorem query_limit_wraps (roomID userID : string) (limit k : Z) :
  ((0 <= limit < 2 ^ 31)%Z ->
     Limit (recentQuery roomID limit) = limit /\
     Limit (userQuery userID limit) = limit) /\
  recentQuery roomID (limit + k * 2 ^ 32) = recentQuery roomID limit /\
  userQuery userID (limit + k * 2 ^ 32) = userQuery userID limit /\
  (- 2 ^ 31 <= Limit (recentQuery roomID limit) < 2 ^ 31)%Z /\
  Limit (recentQuery roomID 4294967297) = 1%Z.
Proof.
  assert (Hwrap : int32 (limit + k * 2 ^ 32) = int32 limit).
  { unfold int32. f_equal.
    replace (limit + k * 2 ^ 32 + 2 ^ 31)%Z
      with (limit + 2 ^ 31 + k * 2 ^ 32)%Z by ring.
    apply Z_mod_plus_full. }
  split; [| split; [| split; [| split]]].
  - intros Hrange. unfold recentQuery, userQuery, int32; simpl.
    rewrite Z.mod_small by lia. split; lia.
  - unfold recentQuery. rewrite Hwrap. reflexivity.
  - unfold userQuery. rewrite Hwrap. reflexivity.
  - unfold recentQuery, int32; simpl.
    pose proof (Z.mod_pos_bound (limit + 2 ^ 31) (2 ^ 32) ltac:(lia)). lia.
  - reflexivity.
Qed.

End storage_facts.

(* ===================================================================== *)
(** ** Properties of the start-up: settings, table, waiting *)
(* ===================================================================== *)

Module startup_facts.

Import storage initdb.

(** X19. The settings [main] takes from the environment: the logger works
    at debug, warn or error level exactly when LOG_LEVEL is the lower-case
    word "debug", "warn" or "error", and at info level in every other
    case, unset, empty and unrecognised values such as "DEBUG" included;
    the server listens on ":" followed by PORT, on ":8080" when PORT is
    unset or empty. *)
Theorem main_settings_from_environment (env : config.environ) :
  (server.logLevel (config.Load env) = server.LevelDebug <->
     config.Getenv env "LOG_LEVEL" = "debug") /\
  (server.logLevel (config.Load env) = server.LevelWarn <->
     config.Getenv env "LOG_LEVEL" = "warn") /\
  (server.logLevel (config.Load env) = server.LevelError <->
     config.Getenv env "LOG_LEVEL" = "error") /\
  (server.logLevel (config.Load env) = server.LevelInfo <->
     config.Getenv env "LOG_LEVEL" <> "debug" /\
     config.Getenv env "LOG_LEVEL" <> "warn" /\
     config.Getenv env "LOG_LEVEL" <> "error") /\
  (config.Getenv env "PORT" = "" ->
     server.Addr (config.Load env) = ":8080") /\
  (config.Getenv env "PORT" <> "" ->
     server.Addr (config.Load env) = ":" ++ config.Getenv env "PORT").
Proof.
  unfold server.logLevel, server.Addr, config.Load, config.getEnv; simpl.
  generalize (config.Getenv env "LOG_LEVEL") as level.
  generalize (config.Getenv env "PORT") as port.
  intros port level.
  assert (Hport : (port = "" ->
                   ":" ++ (if negb (port =? "") then port else "8080")
                   = ":8080") /\
                  (port <> "" ->
                   ":" ++ (if negb (port =? "") then port else "8080")
                   = ":" ++ port)).
  { destruct (String.eqb_spec port ""); simpl;
      split; intros; try contradiction; reflexivity. }
  destruct Hport as [Hunset Hset].
  destruct (String.eqb_spec level "") as [-> | Hne]; simpl.
  - split; [split; discriminate |]. split; [split; discriminate |].
    split; [split; discriminate |].
    split; [split; [intros _; repeat split; discriminate | reflexivity] |].
    split; assumption.
  - destruct (String.eqb_spec level "debug") as [-> | Hdebug].
    { split; [split; reflexivity |]. split; [split; discriminate |].
      split; [split; discriminate |].
      split; [split; [discriminate | intros (H & _); contradiction] |].
      split; assumption. }
    destruct (String.eqb_spec level "warn") as [-> | Hwarn].
    { split; [split; discriminate |]. split; [split; reflexivity |].
      split; [split; discriminate |].
      split; [split; [discriminate | intros (_ & H & _); contradiction] |].
      split; assumption. }
    destruct (String.eqb_spec level "error") as [-> | Herror].
    { split; [split; discriminate |]. split; [split; discriminate |].
      split; [split; reflexivity |].
      split; [split; [discriminate | intros (_ & _ & H); contradiction] |].
      split; assumption. }
    split; [split; [discriminate | contradiction] |].
    split; [split; [discriminate | contradiction] |].
    split; [split; [discriminate | contradiction] |].
    split; [split; [intros _; auto | reflexivity] |].
    split; assumption.
Qed.

Example logLevel_upper_case_is_info :
  server.logLevel (config.Load {[ "LOG_LEVEL" := "DEBUG" ]})
  = server.LevelInfo.
Proof. reflexivity. Qed.

Lemma elem_of_four (a w x y z : string) :
  a ∈ [w; x; y; z] <-> a = w \/ a = x \/ a = y \/ a = z.
Proof.
  rewrite !elem_of_cons, elem_of_nil. tauto.
Qed.

(** X20. The table that the initialisation script creates is the one the
    repository uses. Its name is the one [SaveMessage] puts to and both
    queries read; its primary key is RoomID with MessageID, the two
    attributes for which [SaveMessage] fills in defaults; the index that
    [GetRecentMessages] names exists, with the attribute the query
    compares as its hash key and Timestamp as its range key, and so does
    the index of [GetMessagesByUser]. The request declares each key
    attribute it uses once, as a string, and nothing else. It does so
    only because the keys of the second index occur among the other keys:
    for an arbitrary schema the request declares every key attribute it
    uses exactly when both keys of the second index are among the four
    other key attributes. *)
Theorem createTable_serves_repository
  (roomID userID : string) (limit : Z) (schema : TableSchema) :
  CreateTableName (createTableInput GetTableSchema) = TableName /\
  queryTable (recentQuery roomID limit) = TableName /\
  queryTable (userQuery userID limit) = TableName /\
  KeySchema (createTableInput GetTableSchema)
  = [mkKey AttrRoomID KeyTypeHash; mkKey AttrMessageID KeyTypeRange] /\
  (IndexKeySchema <$>
     indexNamed (createTableInput GetTableSchema)
       (queryIndex (recentQuery roomID limit)))
  = Some [mkKey (queryKey (recentQuery roomID limit)) KeyTypeHash;
          mkKey AttrTimestamp KeyTypeRange] /\
  (IndexKeySchema <$>
     indexNamed (createTableInput GetTableSchema)
       (queryIndex (userQuery userID limit)))
  = Some [mkKey (queryKey (userQuery userID limit)) KeyTypeHash;
          mkKey AttrTimestamp KeyTypeRange] /\
  NoDup (declared (createTableInput GetTableSchema)) /\
  (forall a, a ∈ declared (createTableInput GetTableSchema) <->
             a ∈ keyAttributes (createTableInput GetTableSchema)) /\
  (forall d, d ∈ AttributeDefinitions (createTableInput schema) ->
             AttributeType d = ScalarAttributeTypeS) /\
  ((forall a, a ∈ keyAttributes (createTableInput schema) ->
              a ∈ declared (createTableInput schema)) <->
   GSI2PartitionKey schema ∈ [PartitionKey schema; SortKey schema;
                              GSI1PartitionKey schema; GSI1SortKey schema] /\
   GSI2SortKey schema ∈ [PartitionKey schema; SortKey schema;
                         GSI1PartitionKey schema; GSI1SortKey schema]).
Proof.
  split; [reflexivity |]. split; [reflexivity |]. split; [reflexivity |].
  split; [reflexivity |]. split; [reflexivity |]. split; [reflexivity |].
  split; [| split; [| split; [| split]]].
  - unfold declared; simpl. apply (bool_decide_unpack _). vm_compute.
    reflexivity.
  - intros a. unfold declared, keyAttributes; simpl.
    rewrite !elem_of_cons, elem_of_nil.
    unfold AttrRoomID, AttrMessageID, AttrUserID, AttrTimestamp. tauto.
  - intros d. unfold createTableInput; simpl.
    rewrite !elem_of_cons, elem_of_nil.
    intros [-> | [-> | [-> | [-> | []]]]]; reflexivity.
  - intros Hall. split; apply elem_of_four.
    + apply elem_of_four. apply (Hall (GSI2PartitionKey schema)).
      unfold keyAttributes; simpl. rewrite !elem_of_cons. tauto.
    + apply elem_of_four. apply (Hall (GSI2SortKey schema)).
      unfold keyAttributes; simpl. rewrite !elem_of_cons. tauto.
  - intros [H1 H2] a. unfold keyAttributes, declared; simpl.
    rewrite elem_of_four in H1, H2.
    rewrite !elem_of_cons, elem_of_nil.
    intros [-> | [-> | [-> | [-> | [-> | [-> | []]]]]]]; tauto.
Qed.

Lemma fits64_spec (n : Z) :
  scripts.fits64 n = true <-> (- 2 ^ 63 <= n < 2 ^ 63)%Z.
Proof. unfold scripts.fits64. rewrite andb_true_iff. lia. Qed.

Lemma test_lt_fits (a b : Z) :
  (- 2 ^ 63 <= a < 2 ^ 63)%Z -> (- 2 ^ 63 <= b < 2 ^ 63)%Z ->
  scripts.test_lt a b = Some (a <? b)%Z.
Proof.
  intros Ha Hb. unfold scripts.test_lt.
  rewrite (proj2 (fits64_spec a) Ha), (proj2 (fits64_spec b) Hb).
  reflexivity.
Qed.

Lemma waitLoop_too_large (fuel : nat) (max : Z) (curl : Z -> bool) :
  ~ (- 2 ^ 63 <= max < 2 ^ 63)%Z ->
  scripts.waitLoop fuel 0 max curl = Some (1%Z, 0%Z).
Proof.
  intros Hbig.
  assert (Htest : scripts.test_lt 0 max = None).
  { unfold scripts.test_lt.
    destruct (scripts.fits64 max) eqn:Hfits;
      [apply fits64_spec in Hfits; contradiction |].
    rewrite andb_false_r. reflexivity. }
  destruct fuel; simpl; rewrite Htest; reflexivity.
Qed.

(** The loop of the waiting script, started with [attempt] failed probes
    behind it, when [max] fits 64 bits: the counter never wraps around. *)
Lemma waitLoop_spec (max : Z) (curl : Z -> bool) (fuel : nat) :
  (- 2 ^ 63 <= max < 2 ^ 63)%Z ->
  forall attempt : Z,
    (0 <= attempt <= Z.max 0 max)%Z -> (max - attempt <= Z.of_nat fuel)%Z ->
    (forall k, (0 <= k < attempt)%Z -> curl k = false) ->
    exists code n,
      scripts.waitLoop fuel attempt max curl = Some (code, n) /\
      (attempt <= n)%Z /\
      (forall k, (0 <= k < n)%Z -> curl k = false) /\
      ((code = 0%Z /\ (n < max)%Z /\ curl n = true) \/
       (code = 1%Z /\ n = Z.max attempt max)).
Proof.
  intros Hmax.
  induction fuel as [|fuel IH]; intros attempt Hpos Hfuel Hfailed; simpl;
    rewrite test_lt_fits by lia.
  - destruct (Z.ltb_spec attempt max); [lia |].
    exists 1%Z, attempt. split; [reflexivity |]. split; [lia |].
    split; [exact Hfailed |]. right. split; [reflexivity | lia].
  - destruct (Z.ltb_spec attempt max) as [Hlt | Hge].
    + destruct (curl attempt) eqn:Hcurl.
      * exists 0%Z, attempt. split; [reflexivity |]. split; [lia |].
        split; [exact Hfailed |]. left. split; [reflexivity |].
        split; [exact Hlt | exact Hcurl].
      * assert (Hnext : scripts.int64 (attempt + 1) = (attempt + 1)%Z).
        { unfold scripts.int64. rewrite Z.mod_small by lia. lia. }
        rewrite Hnext.
        destruct (IH (attempt + 1)%Z) as (code & n & Hrun & Hn & Hall & Hend);
          [lia | lia | |].
        { intros k Hk. destruct (Z.eq_dec k attempt) as [-> | Hne];
            [exact Hcurl | apply Hfailed; lia]. }
        exists code, n. split; [exact Hrun |]. split; [lia |].
        split; [exact Hall |].
        destruct Hend as [Hok | [Hcode Hn']]; [left; exact Hok |].
        right. split; [exact Hcode | lia].
    + exists 1%Z, attempt. split; [reflexivity |]. split; [lia |].
      split; [exact Hfailed |]. right. split; [reflexivity | lia].
Qed.

(** X21. The waiting script always ends, whatever integer it is given as
    [max_attempts]. When [max_attempts] fits 64 bits, it exits with status
    0 exactly when one of the first [max_attempts] probes succeeds, at the
    first that does, having slept two seconds after each failed probe
    before it; otherwise it exits with status 1 after [max_attempts]
    failed probes and as many sleeps, which is at most 30 probes and a
    minute of sleep with the default, and without a single probe when
    [max_attempts] is zero or negative. When [max_attempts] does not fit
    64 bits, the test of the loop fails at once and the script exits with
    status 1 without a single probe, also when the database is ready. *)
Theorem wait_for_dynamodb_first_success
  (arg3 : option Z) (curl : Z -> bool) :
  exists code sleeps,
    scripts.wait_for_dynamodb arg3 curl = Some (code, sleeps) /\
    (0 <= sleeps)%Z /\
    (forall k, (0 <= k < sleeps)%Z -> curl k = false) /\
    ((code = 0%Z /\ (- 2 ^ 63 <= scripts.max_attempts arg3 < 2 ^ 63)%Z /\
      (sleeps < scripts.max_attempts arg3)%Z /\ curl sleeps = true) \/
     (code = 1%Z /\ (- 2 ^ 63 <= scripts.max_attempts arg3 < 2 ^ 63)%Z /\
      sleeps = Z.max 0 (scripts.max_attempts arg3)) \/
     (code = 1%Z /\ ~ (- 2 ^ 63 <= scripts.max_attempts arg3 < 2 ^ 63)%Z /\
      sleeps = 0%Z)) /\
    (code = 0%Z <->
       (- 2 ^ 63 <= scripts.max_attempts arg3 < 2 ^ 63)%Z /\
       exists k, (0 <= k < scripts.max_attempts arg3)%Z /\ curl k = true) /\
    (arg3 = None -> (sleeps <= 30)%Z).
Proof.
  unfold scripts.wait_for_dynamodb.
  destruct (Z_le_dec (- 2 ^ 63) (scripts.max_attempts arg3)) as [Hlow | Hlow].
  1: destruct (Z_lt_dec (scripts.max_attempts arg3) (2 ^ 63)) as [Hhigh | Hhigh].
  1: { destruct (waitLoop_spec (scripts.max_attempts arg3) curl
                   (Z.to_nat (scripts.max_attempts arg3)) (conj Hlow Hhigh)
                   0%Z)
         as (code & n & Hrun & Hn & Hall & Hend);
         [lia | lia | intros k; lia |].
       exists code, n. split; [exact Hrun |]. split; [exact Hn |].
       split; [exact Hall |]. split; [| split].
       - destruct Hend as [(Hc & Hlt & Hok) | (Hc & Hmax)].
         + left. auto.
         + right. left. auto.
       - split.
         + intros Hcode.
           destruct Hend as [(_ & Hlt & Hok) | [Hone _]]; [| lia].
           split; [lia |]. exists n. split; [lia | exact Hok].
         + intros (_ & k & Hk & Hok).
           destruct Hend as [(Hcode & _) | [_ Hmax]]; [exact Hcode |].
           rewrite Hall in Hok by lia. discriminate.
       - intros ->. unfold scripts.max_attempts in Hend; simpl in Hend.
         destruct Hend as [(_ & Hlt & _) | [_ ->]]; lia. }
  all: rewrite waitLoop_too_large by lia.
  all: exists 1%Z, 0%Z; split; [reflexivity |]; split; [lia |].
  all: split; [intros k; lia |]; split; [right; right; split; [reflexivity |];
                                          split; [lia | reflexivity] |].
  all: split; [split; [discriminate | intros (Hfit & _); lia] |].
  all: intros ->; unfold scripts.max_attempts in *; simpl in *; lia.
Qed.

(** With 9223372036854775808 attempts allowed and a database that is
    ready, the script gives up at once. *)
Lemma wait_for_dynamodb_first_success_too_large :
  scripts.wait_for_dynamodb (Some (2 ^ 63)%Z) (fun _ => true)
  = Some (1%Z, 0%Z).
Proof.
  destruct (wait_for_dynamodb_first_success (Some (2 ^ 63)%Z) (fun _ => true))
    as (code & sleeps & Hrun & _ & _ & Hend & _).
  rewrite Hrun.
  unfold scripts.max_attempts in Hend; simpl default in Hend.
  destruct Hend as [(_ & Hfit & _) | [(_ & Hfit & _) | (-> & _ & ->)]];
    [lia | lia | reflexivity].
Defined.

Example wait_for_dynamodb_third_probe :
  scripts.wait_for_dynamodb None (fun k => (2 <=? k)%Z) = Some (0%Z, 2%Z) /\
  scripts.wait_for_dynamodb None (fun _ => false) = Some (1%Z, 30%Z) /\
  scripts.wait_for_dynamodb (Some 0%Z) (fun _ => true) = Some (1%Z, 0%Z).
Proof. repeat split; vm_compute; reflexivity. Qed.

End startup_facts.

(* ===================================================================== *)
(** ** From one connection to every member *)
(* ===================================================================== *)

Module relay_facts.

Import hub.

Implicit Types (h : Hub (T := client.Client)) (c : handle).

(** X22. What one connection sends reaches every member's transport. Let
    the inbound pump of a connection hand a non-empty series of payloads
    to [Broadcast], while the loop runs, the request buffer is empty and
    has room for them, and every member's queue is open, empty and has
    room for them. Once the loop has taken the requests, the next queue
    turn of every member's outbound pump writes these payloads, all of
    them and in the order in which the pump handed them over, as one text
    message with a newline between them, and leaves the member's queue
    empty.
    Each payload is the serialization of the message of a frame that was
    read, validated under the identity of the sending connection. *)
Theorem frames_relayed_to_every_member
  (json : message.Codec) (sender : client.Client) (reads : list client.read)
  h (first : bytes) (rest : list bytes) :
  client.broadcasts (client.readPump json sender reads) = first :: rest ->
  running h = true ->
  Chan.buf (broadcast h) = [] ->
  Chan.closed (broadcast h) = false ->
  S (length rest) <= Chan.cap (broadcast h) ->
  (forall c, c ∈ dom (clients h) ->
     client.isOpen (heap h c) /\ client.pending (heap h c) = [] /\
     S (length rest) <= Chan.cap (client.send (heap h c))) ->
  exists h',
    exec ((CallBroadcast <$> first :: rest)
          ++ replicate (S (length rest)) LoopBroadcast) h
    = Chan.Done h' /\
    clients h' = clients h /\
    (forall c, c ∈ dom (clients h) ->
       exists conn,
         outbound.writePump_turn (outbound.FromQueue true true) (heap h' c)
         = Chan.Done ([outbound.SetWriteDeadline;
                       outbound.WriteText
                         (outbound.joinLines (first :: rest)) true],
                      conn, false) /\
         client.pending conn = [] /\ client.isOpen conn) /\
    (forall payload, payload ∈ first :: rest ->
       exists data parsed,
         client.Frame data ∈ reads /\
         message.FromJSON json data = Some parsed /\
         message.Validate (client.setIdentity sender parsed) = None /\
         message.ToJSON json (client.setIdentity sender parsed)
         = Some payload).
Proof.
  intros Hpump Hrun Hbuf Hopen Hcap Hmembers.
  rewrite delivery_facts.exec_app, delivery_facts.exec_Broadcast_all;
    [| exact Hopen | unfold Chan.len; rewrite Hbuf; simpl; lia].
  rewrite Hbuf. simpl app.
  destruct (delivery_facts.exec_LoopBroadcast_all (first :: rest)
              (mkHub (clients h)
                 (Chan.mkChan (first :: rest) (Chan.cap (broadcast h)) false)
                 (done h) (running h) (heap h)))
    as (h' & Hexec & Hclients & _ & _ & Hheap); simpl; auto.
  { intros c Hc. destruct (Hmembers c Hc) as (Ho & Hempty & Hroom).
    split; [exact Ho |]. rewrite Hempty. simpl. lia. }
  exists h'. split; [exact Hexec |]. split; [exact Hclients |]. split.
  - intros c Hc. destruct (Hheap c) as [Hin _]. simpl in Hin.
    destruct (Hin Hc) as [Hpending Hisopen].
    destruct (Hmembers c Hc) as (_ & Hempty & _).
    rewrite Hempty in Hpending. simpl in Hpending.
    eexists. split.
    + apply (outbound_facts.queue_turn_Done (heap h' c) first rest true
               Hpending).
    + simpl. split; [reflexivity |]. exact Hisopen.
  - intros payload Hin. rewrite <- Hpump in Hin.
    destruct (pump_facts.readPump_inv json sender reads payload Hin)
      as (data & Hdata & Hframe).
    destruct (pump_facts.readPump_frame_inv json sender data payload Hframe)
      as (parsed & Hparse & Hvalid & Hjson).
    exists data, parsed. auto.
Qed.

(** Two frames sent under false names, with a malformed one between them,
    reach member 2 as one text of two lines that carry the sender's
    identity. *)
Lemma frames_relayed_to_every_member_three :
  exists h' conn,
    exec ((CallBroadcast <$>
             client.broadcasts
               (client.readPump fixtures.sampleJSON fixtures.actual
                  samples.conversation))
          ++ replicate 2 LoopBroadcast) samples.threeMembers
    = Chan.Done h' /\
    outbound.writePump_turn (outbound.FromQueue true true) (heap h' 2)
    = Chan.Done
        ([outbound.SetWriteDeadline;
          outbound.WriteText
            (outbound.joinLines
               [fixtures.frame
                  (fixtures.chatFrame "actualUser" "ActualName" "hi"
                     "1999-12-31T23:59:59+02:00");
                fixtures.frame
                  (fixtures.chatFrame "actualUser" "ActualName" "Hello"
                     "0001-01-01T00:00:00Z")]) true],
         conn, false).
Proof.
  assert (Hpump :
    client.broadcasts
      (client.readPump fixtures.sampleJSON fixtures.actual
         samples.conversation)
    = [fixtures.frame
         (fixtures.chatFrame "actualUser" "ActualName" "hi"
            "1999-12-31T23:59:59+02:00");
       fixtures.frame
         (fixtures.chatFrame "actualUser" "ActualName" "Hello"
            "0001-01-01T00:00:00Z")])
    by (vm_compute; reflexivity).
  destruct (frames_relayed_to_every_member fixtures.sampleJSON
              fixtures.actual samples.conversation samples.threeMembers
              _ _ Hpump eq_refl eq_refl eq_refl)
    as (h' & Hexec & _ & Hwrite & _).
  { simpl. lia. }
  { intros c _. split; [split; reflexivity |]. split; [reflexivity |].
    simpl. unfold client.sendBufferSize. lia. }
  destruct (Hwrite 2) as (conn & Hturn & _).
  { apply elem_of_dom. exists true. reflexivity. }
  exists h', conn. rewrite Hpump. split; [exact Hexec | exact Hturn].
Defined.

End relay_facts.
